(** * printables_downloader: a shallow embedding of [downloader.py]

    The development follows [src/printables_downloader/downloader.py].
    Python [str] values are modelled as [string] (sequences of 8-bit
    characters); [str.lower] is modelled on the ASCII range, where it maps
    ['A'..'Z'] to ['a'..'z'] and leaves every other character alone.
    Decoded JSON objects are modelled as typed records: a run on a payload
    that lacks a mandatory key is outside the model. *)

From Stdlib Require Import String Ascii List Bool Arith Lia.
From stdpp Require Import base option list gmap strings.

Import ListNotations.
Local Open Scope string_scope.

(** ** Strings *)

Module Str.

(** [c in s] for a one-character [c]: Python's substring test on a single
    character is membership. *)
Fixpoint char_in (c : ascii) (s : string) : bool :=
  match s with
  | EmptyString => false
  | String d s' => if Ascii.eqb c d then true else char_in c s'
  end.

(** Joining, on the empty separator, the one-character strings [f c] for
    [c] in [s]. *)
Fixpoint join_map (f : ascii -> ascii) (s : string) : string :=
  match s with
  | EmptyString => EmptyString
  | String c s' => String (f c) (join_map f s')
  end.

Definition is_upper (c : ascii) : bool :=
  let n := nat_of_ascii c in (65 <=? n)%nat && (n <=? 90)%nat.

Definition lower_char (c : ascii) : ascii :=
  if is_upper c then ascii_of_nat (nat_of_ascii c + 32) else c.

(** [s.lower()] *)
Definition lower (s : string) : string := join_map lower_char s.

(** [s.startswith(p)] *)
Fixpoint startswith (s p : string) : bool :=
  match p, s with
  | EmptyString, _ => true
  | String _ _, EmptyString => false
  | String a p', String b s' => if Ascii.eqb a b then startswith s' p' else false
  end.

(** [s.endswith(e)] for a string [e]: the last [len(e)] characters of [s]
    are [e]. *)
Definition endswith (s e : string) : bool :=
  (String.length e <=? String.length s)%nat
  && String.eqb (substring (String.length s - String.length e) (String.length e) s) e.

(** [s.endswith(t)] for a tuple [t]: some member of [t] is a suffix. *)
Definition endswith_any (s : string) (t : list string) : bool :=
  existsb (endswith s) t.

(** [x in l] for a list of strings. *)
Definition mem (x : string) (l : list string) : bool :=
  existsb (String.eqb x) l.

(** The characters of a string, for statements about positions. *)
Definition chars (s : string) : list ascii := list_ascii_of_string s.

End Str.

(** ** Filename sanitizer (lines 11, 26-27) *)

(** The nine characters [< > : dquote / backslash | ? *]; the double quote
    is character 34. *)
Definition INVALID_WINDOWS_CHARS : string :=
  "<>:" ++ String "034"%char "/\|?*".

Definition sanitize_char (c : ascii) : ascii :=
  if negb (Str.char_in c INVALID_WINDOWS_CHARS) then c else "_"%char.

Definition sanitize_filename (name : string) : string :=
  Str.join_map sanitize_char name.

(** A string is clean when none of its characters is disallowed. *)
Definition clean (s : string) : Prop :=
  forall c, In c (Str.chars s) -> Str.char_in c INVALID_WINDOWS_CHARS = false.

(** ** Data model *)

(** One entry of the model's [stls] list.  [folder] is read with
    [file.get] and the empty string as default: an absent key stands for
    the empty string. *)
Record FileDescriptor := {
  file_id : string;
  file_name : string;
  folder : option string
}.

(** [data["data"]["model"]]: the identifier and the file list, the latter
    read with [.get("stls", [])]. *)
Record Model := {
  model_id : string;
  stls : list FileDescriptor
}.

(** Values produced by [r.json()]. Objects keep their keys in an association
    list; a lookup returns the first binding. Non-integer numbers are left
    out. *)
#[warnings="-register-all"] Inductive pyval :=
| PNone
| PBool (b : bool)
| PInt (n : Z)
| PStr (s : string)
| PList (l : list pyval)
| PDict (d : list (string * pyval)).

(** ** Exceptions and outcomes *)

Inductive exn :=
| KeyError
| TypeError
| JSONDecodeError
| HTTPError
| ConnectionError
| OSError
| KeyboardInterrupt
| SystemExit.

(** [except Exception] catches every class but the two that derive from
    [BaseException] directly. *)
Definition is_Exception (e : exn) : bool :=
  match e with
  | KeyboardInterrupt | SystemExit => false
  | _ => true
  end.

Inductive outcome (A : Type) :=
| Returns (a : A)
| Raises (e : exn).
Arguments Returns {A} a.
Arguments Raises {A} e.

(** Truth value of a Python object, as tested by [if v:]. *)
Definition truthy (v : pyval) : bool :=
  match v with
  | PNone => false
  | PBool b => b
  | PInt n => negb (n =? 0)%Z
  | PStr s => negb (String.eqb s EmptyString)
  | PList l => match l with [] => false | _ => true end
  | PDict d => match d with [] => false | _ => true end
  end.

Fixpoint assoc (k : string) (d : list (string * pyval)) : option pyval :=
  match d with
  | [] => None
  | (k', v) :: d' => if String.eqb k k' then Some v else assoc k d'
  end.

(** [v[k]] for a string key [k]. *)
Definition subscript (v : pyval) (k : string) : outcome pyval :=
  match v with
  | PDict d => match assoc k d with
               | Some x => Returns x
               | None => Raises KeyError
               end
  | _ => Raises TypeError
  end.

(** ** The environment

    The program talks to the network and to the file system.  Each kind of
    call has a tape of replies, indexed by the number of earlier calls of
    that kind; a theorem that quantifies over every [Env] covers every
    behaviour of the outside world.  [print] and [time.sleep] are taken to
    return normally. *)

Record response := {
  status_code : Z;
  reason : string;
  json : option pyval      (* [None]: the body does not decode *)
}.

(** What happens to the body of a successful GET reply while lines 98-100
    save it: [open] raises, or the listed chunks are written and then either
    the block completes or an exception leaves it. *)
Inductive save_outcome :=
| OpenRaises (e : exn)
| Writes (chunks : list string) (stop : option exn).

Record Env := {
  os_path_join : string -> string -> string;
  makedirs_reply : nat -> option exn;
  exists_reply : nat -> bool;
  post_reply : nat -> outcome response;
  get_reply : nat -> outcome response;
  save_reply : nat -> save_outcome   (* indexed like [get_reply] *)
}.

(** [os.path.join] on a POSIX platform, for two components. *)
Definition posix_join (a b : string) : string :=
  if Str.startswith b "/" then b
  else if String.eqb a EmptyString || Str.endswith a "/" then a ++ b
  else a ++ "/" ++ b.

(** ** Observable events *)

Inductive message :=
| MsgDryRun (name save_path : string)          (* line 89 *)
| MsgAttempt (n : nat) (name : string)         (* line 94 *)
| MsgSaved (save_path : string)                (* line 101 *)
| MsgFailedStatus (code : Z) (why : string)    (* line 104 *)
| MsgError (e : exn)                           (* line 106 *)
| MsgGivingUp (name : string)                  (* line 109 *)
| MsgAddingStl                                 (* line 126 *)
| MsgAlready (save_path : string)              (* line 140 *)
| MsgGetting (name : string)                   (* line 150 *)
| MsgCouldNot (name : string)                  (* line 156 *)
| MsgNoLink (name : string)                    (* line 158 *)
| MsgDone.                                     (* line 160 *)

Inductive event :=
| EvPrint (m : message)
| EvMakedirs (path : string) (r : option exn)
| EvExists (path : string) (b : bool)
| EvPost (fid mid : string) (r : outcome response)
| EvGet (url : pyval) (r : outcome response)
| EvOpen (path : string) (r : option exn)
| EvWrite (path : string) (chunk : string)
| EvSleep
| EvFetch (save_path name : string).
(* [EvFetch] marks an entry into [download_file]; the function prints
   nothing of its own on entry, the mark tells which file a fetch is for. *)

(** ** Program state and the monad of the pipeline *)

Definition loc := positive.

(** [lists] is the store of Python list objects (the [extensions] argument
    is a reference into it); the counters tell how far each tape was read. *)
Record state := {
  lists : gmap loc (list string);
  makedirs_calls : nat;
  exists_calls : nat;
  post_calls : nat;
  get_calls : nat
}.

Record run (A : Type) := {
  out : outcome A;
  final : state;
  log : list event
}.
Arguments out {A} r.
Arguments final {A} r.
Arguments log {A} r.

Definition M (A : Type) : Type := state -> run A.

Definition ret {A} (a : A) : M A :=
  fun s => {| out := Returns a; final := s; log := [] |}.

Definition raise {A} (e : exn) : M A :=
  fun s => {| out := Raises e; final := s; log := [] |}.

Definition bind {A B} (m : M A) (k : A -> M B) : M B :=
  fun s =>
    let r := m s in
    match out r with
    | Returns a =>
        let r' := k a (final r) in
        {| out := out r'; final := final r'; log := (log r ++ log r')%list |}
    | Raises e => {| out := Raises e; final := final r; log := log r |}
    end.

Declare Scope py_scope.
Delimit Scope py_scope with py.
Notation "x <- m ;; k" := (bind m (fun x => k))
  (at level 100, m at next level, right associativity) : py_scope.
Notation "m ;;; k" := (bind m (fun _ => k))
  (at level 100, right associativity) : py_scope.
Local Open Scope py_scope.

(** [try: m except Exception as e: h e] *)
Definition try_except {A} (m : M A) (h : exn -> M A) : M A :=
  fun s =>
    let r := m s in
    match out r with
    | Returns _ => r
    | Raises e =>
        if is_Exception e then
          let r' := h e (final r) in
          {| out := out r'; final := final r'; log := (log r ++ log r')%list |}
        else r
    end.

(** Sequencing of plain outcomes, for code that touches neither the state
    nor the outside world. *)
Definition and_then {A B} (o : outcome A) (k : A -> outcome B) : outcome B :=
  match o with
  | Returns a => k a
  | Raises e => Raises e
  end.

Definition lift {A} (o : outcome A) : M A :=
  match o with
  | Returns a => ret a
  | Raises e => raise e
  end.

Definition emit (ev : event) : M unit :=
  fun s => {| out := Returns tt; final := s; log := [ev] |}.

Definition print (m : message) : M unit := emit (EvPrint m).

Definition when (b : bool) (m : M unit) : M unit := if b then m else ret tt.

(** Reading and appending to a list object. *)
Definition load (l : loc) : M (list string) :=
  fun s => {| out := Returns (default [] (lists s !! l)); final := s; log := [] |}.

Definition append (l : loc) (x : string) : M unit :=
  fun s =>
    {| out := Returns tt;
       final := {| lists := <[l := (default [] (lists s !! l) ++ [x])%list]> (lists s);
                   makedirs_calls := makedirs_calls s;
                   exists_calls := exists_calls s;
                   post_calls := post_calls s;
                   get_calls := get_calls s |};
       log := [] |}.

Section Pipeline.

Variable env : Env.

(** [os.makedirs(path, exist_ok=True)] *)
Definition os_makedirs (path : string) : M unit :=
  fun s =>
    let r := makedirs_reply env (makedirs_calls s) in
    {| out := match r with None => Returns tt | Some e => Raises e end;
       final := {| lists := lists s;
                   makedirs_calls := S (makedirs_calls s);
                   exists_calls := exists_calls s;
                   post_calls := post_calls s;
                   get_calls := get_calls s |};
       log := [EvMakedirs path r] |}.

(** [os.path.exists(path)] *)
Definition os_path_exists (path : string) : M bool :=
  fun s =>
    let b := exists_reply env (exists_calls s) in
    {| out := Returns b;
       final := {| lists := lists s;
                   makedirs_calls := makedirs_calls s;
                   exists_calls := S (exists_calls s);
                   post_calls := post_calls s;
                   get_calls := get_calls s |};
       log := [EvExists path b] |}.

(** [SESSION.post(url, json=payload)] with the payload of lines 68-77. *)
Definition session_post (fid mid : string) : M response :=
  fun s =>
    let r := post_reply env (post_calls s) in
    {| out := r;
       final := {| lists := lists s;
                   makedirs_calls := makedirs_calls s;
                   exists_calls := exists_calls s;
                   post_calls := S (post_calls s);
                   get_calls := get_calls s |};
       log := [EvPost fid mid r] |}.

(** [SESSION.get(url, stream=True)]; the result carries the index of the
    call, which selects the fate of the save that may follow. *)
Definition session_get (url : pyval) : M (nat * response) :=
  fun s =>
    let n := get_calls s in
    let r := get_reply env n in
    {| out := match r with Returns x => Returns (n, x) | Raises e => Raises e end;
       final := {| lists := lists s;
                   makedirs_calls := makedirs_calls s;
                   exists_calls := exists_calls s;
                   post_calls := post_calls s;
                   get_calls := S n |};
       log := [EvGet url r] |}.

(** [resp.ok]: [raise_for_status] would not raise. *)
Definition ok (r : response) : bool :=
  negb ((400 <=? status_code r)%Z && (status_code r <? 600)%Z).

(** [r.raise_for_status()] *)
Definition raise_for_status (r : response) : outcome unit :=
  if ok r then Returns tt else Raises HTTPError.

(** [r.json()] *)
Definition response_json (r : response) : outcome pyval :=
  match json r with
  | Some v => Returns v
  | None => Raises JSONDecodeError
  end.

(** Lines 80-84: what the resolver makes of the reply to its request. *)
Definition read_link (r : response) : outcome pyval :=
  and_then (raise_for_status r) (fun _ =>
  and_then (response_json r) (fun data =>
  and_then (subscript data "data") (fun d1 =>
  and_then (subscript d1 "getDownloadLink") (fun g1 =>
  and_then (subscript g1 "ok") (fun is_ok =>
  if truthy is_ok then
    and_then (subscript data "data") (fun d2 =>
    and_then (subscript d2 "getDownloadLink") (fun g2 =>
    and_then (subscript g2 "output") (fun o =>
    subscript o "link")))
  else Returns PNone))))).

(** Lines 99-100, for the chunks that reach the file. *)
Fixpoint write_chunks (save_path : string) (chunks : list string) : M unit :=
  match chunks with
  | [] => ret tt
  | chunk :: chunks' =>
      emit (EvWrite save_path chunk) ;;;
      write_chunks save_path chunks'
  end.

(** Lines 98-100: open the destination and write the streamed chunks. *)
Definition save_body (n : nat) (save_path : string) : M unit :=
  match save_reply env n with
  | OpenRaises e => emit (EvOpen save_path (Some e)) ;;; raise e
  | Writes chunks stop =>
      emit (EvOpen save_path None) ;;;
      write_chunks save_path chunks ;;;
      match stop with
      | None => ret tt
      | Some e => raise e
      end
  end.

(** ** Link resolver (lines 66-84) *)
Definition graphql_download_url (fid mid : string) : M pyval :=
  r <- session_post fid mid ;;
  lift (read_link r).

(** ** File fetcher (lines 87-110) *)

(** The body of the [try] statement, lines 96-104.  The result is [true]
    when the function returned [True] from inside it and [false] when
    control fell through to the end of the statement. *)
Definition attempt_body (url : pyval) (save_path : string) : M bool :=
  nr <- session_get url ;;
  let '(n, resp) := nr in
  if ok resp then
    save_body n save_path ;;;
    print (MsgSaved save_path) ;;;
    ret true
  else
    print (MsgFailedStatus (status_code resp) (reason resp)) ;;;
    ret false.

(** Lines 92-110: the loop over the attempt numbers still to run, and
    the code after it. *)
Fixpoint attempts (todo : list nat) (url : pyval) (save_path name : string)
         (verbose : bool) : M bool :=
  match todo with
  | [] =>
      print (MsgGivingUp name) ;;;
      ret false
  | attempt :: todo' =>
      when verbose (print (MsgAttempt (attempt + 1) name)) ;;;
      returned <- try_except (attempt_body url save_path)
                             (fun e => print (MsgError e) ;;; ret false) ;;
      if returned then ret true
      else
        emit EvSleep ;;;
        attempts todo' url save_path name verbose
  end.

Definition download_file (url : pyval) (save_path name : string)
           (dry_run verbose : bool) : M bool :=
  emit (EvFetch save_path name) ;;;
  if dry_run then
    print (MsgDryRun name save_path) ;;;
    ret true
  else attempts (seq 0 3) url save_path name verbose.

(** ** Orchestrator (lines 113-160) *)

Definition has_3mf (files : list FileDescriptor) : bool :=
  existsb (fun f => Str.endswith (Str.lower (file_name f)) ".3mf") files.

(** Lines 123-127. *)
Definition add_stl_fallback (files : list FileDescriptor) (extensions : loc)
           (verbose : bool) : M unit :=
  exts <- load extensions ;;
  if Str.mem ".3mf" exts && negb (has_3mf files) then
    exts' <- load extensions ;;
    if negb (Str.mem ".stl" exts') then
      when verbose (print MsgAddingStl) ;;;
      append extensions ".stl"
    else ret tt
  else ret tt.

(** Line 129, for the tuple [exts] read from the list. *)
Definition matching (exts : list string) (files : list FileDescriptor)
  : list FileDescriptor :=
  List.filter (fun f => Str.endswith_any (Str.lower (file_name f)) exts) files.

(** The value of [tuple(extensions)] on line 129, after lines 123-127. *)
Definition filter_extensions (files : list FileDescriptor) (extensions : loc)
           (verbose : bool) : M (list string) :=
  add_stl_fallback files extensions verbose ;;;
  load extensions.

(** Lines 123-129: the files the run will work on. *)
Definition select_files (files : list FileDescriptor) (extensions : loc)
           (verbose : bool) : M (list FileDescriptor) :=
  exts <- filter_extensions files extensions verbose ;;
  ret (matching exts files).

(** Lines 133-137: the destination of a file. *)
Definition save_dir_of (output_root : string) (f : FileDescriptor) : string :=
  os_path_join env output_root (sanitize_filename (default EmptyString (folder f))).

Definition save_path_of (output_root : string) (f : FileDescriptor) : string :=
  os_path_join env (save_dir_of output_root f) (sanitize_filename (file_name f)).

(** Lines 131-143: the first loop; the result is [remaining]. *)
Fixpoint collect_remaining (files : list FileDescriptor) (output_root : string)
         (dry_run : bool) : M (list (FileDescriptor * string)) :=
  match files with
  | [] => ret []
  | file :: files' =>
      let save_path := save_path_of output_root file in
      os_makedirs (save_dir_of output_root file) ;;;
      present <- os_path_exists save_path ;;
      if present && negb dry_run then
        print (MsgAlready save_path) ;;;
        collect_remaining files' output_root dry_run
      else
        rest <- collect_remaining files' output_root dry_run ;;
        ret ((file, save_path) :: rest)
  end.

(** Lines 146-158: one iteration of the second loop. *)
Definition process_file (mid : string) (task : FileDescriptor * string)
           (dry_run verbose : bool) : M unit :=
  let '(file, save_path) := task in
  when verbose (print (MsgGetting (file_name file))) ;;;
  url <- graphql_download_url (file_id file) mid ;;
  if truthy url then
    success <- download_file url save_path (file_name file) dry_run verbose ;;
    if negb success then print (MsgCouldNot (file_name file)) else ret tt
  else print (MsgNoLink (file_name file)).

(** Lines 145-158: the second loop. *)
Fixpoint process_remaining (mid : string) (remaining : list (FileDescriptor * string))
         (dry_run verbose : bool) : M unit :=
  match remaining with
  | [] => ret tt
  | task :: remaining' =>
      process_file mid task dry_run verbose ;;;
      process_remaining mid remaining' dry_run verbose
  end.

Definition download_model_files (data : Model) (output_root : string)
           (extensions : loc) (dry_run verbose : bool) : M unit :=
  files <- select_files (stls data) extensions verbose ;;
  remaining <- collect_remaining files output_root dry_run ;;
  process_remaining (model_id data) remaining dry_run verbose ;;;
  print MsgDone.

End Pipeline.

(** ** Addresses and extensions given on the command line *)

(** [s.rstrip("/")] *)
Fixpoint rstrip_slash (s : string) : string :=
  match s with
  | EmptyString => EmptyString
  | String c s' =>
      match rstrip_slash s' with
      | EmptyString => if Ascii.eqb c "/" then EmptyString else String c EmptyString
      | t => String c t
      end
  end.

(** Lines 31-32: the address of the page that lists the files. *)
Definition files_url (url : string) : string :=
  if negb (Str.endswith url "/files") then rstrip_slash url ++ "/files" else url.





(** Line 183, for one extension and for the list. *)
Definition dotted (e : string) : string :=
  if Str.startswith e "." then e else "." ++ e.

Definition dotted_extensions (ext : list string) : list string :=
  List.map dotted ext.

(** The last character of a string. *)
Fixpoint last_char (s : string) : option ascii :=
  match s with
  | EmptyString => None
  | String c EmptyString => Some c
  | String _ s' => last_char s'
  end.

(** A string with an ASCII capital in it. *)
Definition has_capital (s : string) : bool :=
  existsb Str.is_upper (Str.chars s).

(** ** Page extractor (lines 30-63) *)

(** What the [try] statement of lines 53-61 can raise: an exception of the
    classes above, the [ValueError] of line 57, or the [AttributeError] of
    a decoded value that has no [get]. *)
Inductive parse_exn :=
| Known (e : exn)
| ValueError
| AttributeError.

Inductive tried (A : Type) :=
| Got (a : A)
| Threw (e : parse_exn).
Arguments Got {A} a.
Arguments Threw {A} e.

(** Why a [RuntimeError] is raised: lines 38, 49 and 63. *)
Inductive page_failure :=
| FetchFailed (status : Z)
| NoScriptBlock
| ParseFailed (cause : parse_exn).

(** The exceptions that leave the extractor: one it did not catch, passed on
    as it came, or a [RuntimeError] of its own. *)
Inductive page_exn :=
| Passed (e : exn)
| RuntimeError (why : page_failure).

Inductive extraction :=
| Extracted (inner : pyval)
| Failed (e : page_exn).

Record page := {
  head : response;     (* status and reason *)
  text : string        (* [res.text] *)
}.

(** The outside of the extractor: the reply to its GET, and the two library
    functions it relies on, taken as they are: [re.search] with the pattern
    of line 44, giving group 1 of the match if there is one, and
    [json.loads]. *)
Record Web := {
  page_reply : string -> outcome page;
  script_block : string -> option string;
  json_loads : string -> outcome pyval
}.

Inductive page_message :=
| MsgFetching (url : string)     (* line 35 *)
| MsgPageFetched                 (* line 41 *)
| MsgFoundBlock                  (* line 52 *)
| MsgExtracted.                  (* line 60 *)

Inductive page_event :=
| PageGet (url : string)
| PagePrint (m : page_message).

(** [outer_json.get("body")]: a dict gives the value or [None], anything
    else has no [get]. *)
Definition get_body (outer : pyval) : tried pyval :=
  match outer with
  | PDict d => Got (default PNone (assoc "body" d))
  | _ => Threw AttributeError
  end.

(** [json.loads(v)] for a decoded value [v]: only text can be decoded. *)
Definition loads_value (web : Web) (v : pyval) : tried pyval :=
  match v with
  | PStr t => match json_loads web t with
              | Returns x => Got x
              | Raises e => Threw (Known e)
              end
  | _ => Threw (Known TypeError)
  end.

(** Lines 54-58, the decoding inside the [try] statement. *)
Definition parse_block (web : Web) (block : string) : tried pyval :=
  match json_loads web block with
  | Raises e => Threw (Known e)
  | Returns outer_json =>
      match get_body outer_json with
      | Threw e => Threw e
      | Got inner_json_str =>
          if negb (truthy inner_json_str) then Threw ValueError
          else loads_value web inner_json_str
      end
  end.

(** Lines 62-63: [except Exception] turns what it catches into a
    [RuntimeError]. *)
Definition wrap (e : parse_exn) : page_exn :=
  match e with
  | Known e' => if is_Exception e' then RuntimeError (ParseFailed e) else Passed e'
  | _ => RuntimeError (ParseFailed e)
  end.

Definition said (verbose : bool) (m : page_message) : list page_event :=
  if verbose then [PagePrint m] else [].

Definition extract_model_json_from_url (web : Web) (url : string) (verbose : bool)
  : extraction * list page_event :=
  let url := files_url url in
  let lg := (said verbose (MsgFetching url) ++ [PageGet url])%list in
  match page_reply web url with
  | Raises e => (Failed (Passed e), lg)
  | Returns res =>
      if negb (ok (head res))
      then (Failed (RuntimeError (FetchFailed (status_code (head res)))), lg)
      else
        let lg := (lg ++ said verbose MsgPageFetched)%list in
        match script_block web (text res) with
        | None => (Failed (RuntimeError NoScriptBlock), lg)
        | Some block =>
            let lg := (lg ++ said verbose MsgFoundBlock)%list in
            match parse_block web block with
            | Got inner_json => (Extracted inner_json, (lg ++ said verbose MsgExtracted)%list)
            | Threw e => (Failed (wrap e), lg)
            end
        end
  end.

(** The addresses requested, read off a log. *)
Definition page_gets (lg : list page_event) : list string :=
  omap (fun ev => match ev with PageGet url => Some url | _ => None end) lg.

(** [json.loads] raises nothing that [except Exception] would let through. *)
Definition loads_raises_exceptions (web : Web) : Prop :=
  forall t e, json_loads web t = Raises e -> is_Exception e = true.

(** ** Vocabulary of the statements *)

(** The folders asked of [os.makedirs], in the order of the calls. *)
Definition folder_made (ev : event) : option string :=
  match ev with EvMakedirs path _ => Some path | _ => None end.

Definition folders_made (lg : list event) : list string :=
  omap folder_made lg.

(** What the second loop may log. *)
Definition second_loop_event (ev : event) : Prop :=
  match ev with
  | EvPost _ _ _ | EvFetch _ _ | EvGet _ _ | EvOpen _ _ | EvWrite _ _ | EvSleep => True
  | EvPrint (MsgGetting _) | EvPrint (MsgCouldNot _) | EvPrint (MsgNoLink _)
  | EvPrint (MsgDryRun _ _) | EvPrint (MsgAttempt _ _) | EvPrint (MsgSaved _)
  | EvPrint (MsgFailedStatus _ _) | EvPrint (MsgError _) | EvPrint (MsgGivingUp _) => True
  | _ => False
  end.

(** An event of the file system side of the first loop. *)
Definition first_loop_io (ev : event) : bool :=
  match ev with EvMakedirs _ _ | EvExists _ _ => true | _ => false end.

(** An event of the network side or of the saving of files. *)
Definition second_loop_io (ev : event) : bool :=
  match ev with
  | EvPost _ _ _ | EvFetch _ _ | EvGet _ _ | EvOpen _ _ | EvWrite _ _ | EvSleep => true
  | _ => false
  end.

Definition is_sleep (ev : event) : bool :=
  match ev with EvSleep => true | _ => false end.

(** The number of waits in a log. *)
Definition count_sleeps (lg : list event) : nat :=
  List.length (List.filter is_sleep lg).

(** The event opens or writes a file. *)
Definition touches_file (ev : event) : bool :=
  match ev with EvOpen _ _ | EvWrite _ _ => true | _ => false end.

(** GET number [n] brings no body to save: the request raises or the
    status is not a success. *)
Definition no_body (env : Env) (n : nat) : bool :=
  match get_reply env n with
  | Raises _ => true
  | Returns resp => negb (ok resp)
  end.

(** The attempt that issues GET number [n] is cut short by an exception
    that [except Exception] lets through. *)
Definition attempt_interrupted (env : Env) (n : nat) : option exn :=
  match get_reply env n with
  | Raises e => if is_Exception e then None else Some e
  | Returns resp =>
      if ok resp then
        match save_reply env n with
        | OpenRaises e | Writes _ (Some e) => if is_Exception e then None else Some e
        | Writes _ None => None
        end
      else None
  end.

(** The messages printed only when [verbose] is set (lines 94, 126, 150). *)
Definition verbose_only (ev : event) : bool :=
  match ev with
  | EvPrint (MsgAttempt _ _) | EvPrint MsgAddingStl | EvPrint (MsgGetting _) => true
  | _ => false
  end.

(** A log without those messages. *)
Definition essential (lg : list event) : list event :=
  List.filter (fun ev => negb (verbose_only ev)) lg.

(** Two runs that differ at most by those messages. *)
Definition alike {A} (r1 r2 : run A) : Prop :=
  out r1 = out r2 /\ final r1 = final r2 /\ essential (log r1) = essential (log r2).

Definition alike_from_any_state {A} (m1 m2 : M A) : Prop :=
  forall s, alike (m1 s) (m2 s).

(** The destinations reported as already downloaded (line 140). *)
Definition already_reports (lg : list event) : list string :=
  omap (fun ev => match ev with EvPrint (MsgAlready path) => Some path | _ => None end) lg.

(** The destinations of the files found present, the first of them at
    existence check number [x]. *)
Fixpoint present_at (env : Env) (output_root : string) (x : nat)
         (files : list FileDescriptor) : list string :=
  match files with
  | [] => []
  | f :: files' =>
      if exists_reply env x
      then save_path_of env output_root f :: present_at env output_root (S x) files'
      else present_at env output_root (S x) files'
  end.

(** The closing message was printed. *)
Definition said_done (lg : list event) : bool :=
  existsb (fun ev => match ev with EvPrint MsgDone => true | _ => false end) lg.

(** [name] ends with [ext] when the case of letters is ignored. *)
Definition ends_with_ci (name ext : string) : bool :=
  Str.endswith (Str.lower name) (Str.lower ext).

(** A list of extensions written without capital letters. *)
Definition lower_case (exts : list string) : Prop :=
  forall e, In e exts -> Str.lower e = e.

(** The three conditions under which [.stl] is added. *)
Definition fallback_applies (files : list FileDescriptor) (exts : list string) : Prop :=
  In ".3mf" exts
  /\ (forall f, In f files -> ends_with_ci (file_name f) ".3mf" = false)
  /\ ~ In ".stl" exts.

Definition fallback_appliesb (files : list FileDescriptor) (exts : list string) : bool :=
  Str.mem ".3mf" exts && negb (has_3mf files) && negb (Str.mem ".stl" exts).

(** The extensions in force once lines 123-127 have run on the requested
    list [exts]. *)
Definition extensions_in_force (files : list FileDescriptor) (exts : list string)
  : list string :=
  if fallback_appliesb files exts then (exts ++ [".stl"])%list else exts.

(** The files whose name ends, case ignored, with one of [exts]. *)
Definition ci_matching (exts : list string) (files : list FileDescriptor)
  : list FileDescriptor :=
  List.filter (fun f => existsb (ends_with_ci (file_name f)) exts) files.

(** The environment makes the attempt that issues GET number [n] fail: the
    request raises, or the status is not a success, or the save raises. *)
Definition attempt_fails (env : Env) (n : nat) : bool :=
  match get_reply env n with
  | Raises e => is_Exception e
  | Returns resp =>
      if ok resp then
        match save_reply env n with
        | OpenRaises e => is_Exception e
        | Writes _ (Some e) => is_Exception e
        | Writes _ None => false
        end
      else true
  end.

(** The status of GET number [n] is a success and the save completes. *)
Definition attempt_succeeds (env : Env) (n : nat) : bool :=
  match get_reply env n with
  | Raises _ => false
  | Returns resp =>
      ok resp && match save_reply env n with
                 | Writes _ None => true
                 | _ => false
                 end
  end.

Definition is_get (ev : event) : bool :=
  match ev with EvGet _ _ => true | _ => false end.

(** The number of GET requests in a log. *)
Definition count_gets (lg : list event) : nat :=
  List.length (List.filter is_get lg).

(** Readings of a log: the resolver's requests, as (file id, model id); the
    entries into the fetcher, as (destination, file name); the dry-run
    reports, as (file name, destination). *)
Definition resolver_call (ev : event) : option (string * string) :=
  match ev with EvPost fid mid _ => Some (fid, mid) | _ => None end.

Definition fetcher_call (ev : event) : option (string * string) :=
  match ev with EvFetch save_path name => Some (save_path, name) | _ => None end.

Definition dry_report (ev : event) : option (string * string) :=
  match ev with EvPrint (MsgDryRun name save_path) => Some (name, save_path) | _ => None end.

Definition resolver_calls (lg : list event) : list (string * string) :=
  omap resolver_call lg.

Definition fetcher_calls (lg : list event) : list (string * string) :=
  omap fetcher_call lg.

Definition dry_reports (lg : list event) : list (string * string) :=
  omap dry_report lg.

(** The fetch step's traffic: its requests and waits, and the opening and
    writing of files. *)
Definition fetch_io (ev : event) : bool :=
  match ev with
  | EvGet _ _ | EvOpen _ _ | EvWrite _ _ | EvSleep => true
  | _ => false
  end.

(** Every event a computation logs satisfies [P]. *)
Definition emits {A} (P : event -> Prop) (m : M A) : Prop :=
  forall s, Forall P (log (m s)).

(** What the first loop may log. *)
Definition first_loop_event (ev : event) : Prop :=
  match ev with
  | EvMakedirs _ _ | EvExists _ _ | EvPrint (MsgAlready _) => True
  | _ => False
  end.

(** What the fetcher may log after its entry mark. *)
Definition fetch_step_event (ev : event) : Prop :=
  match ev with
  | EvGet _ _ | EvOpen _ _ | EvWrite _ _ | EvSleep => True
  | EvPrint (MsgAttempt _ _) | EvPrint (MsgSaved _) | EvPrint (MsgFailedStatus _ _)
  | EvPrint (MsgError _) | EvPrint (MsgGivingUp _) | EvPrint (MsgDryRun _ _) => True
  | _ => False
  end.

(** Nobody interrupts a download: each attempt fails in a way that
    [except Exception] catches, or succeeds. *)
Definition uninterrupted (env : Env) : Prop :=
  forall n, attempt_fails env n = true \/ attempt_succeeds env n = true.

(** The resolver never raises: every request ends with a link or with none. *)
Definition resolver_answers (env : Env) : Prop :=
  forall n, exists url, and_then (post_reply env n) read_link = Returns url.

(** The pair [remaining] holds for a file. *)
Definition task_of (env : Env) (output_root : string) (f : FileDescriptor)
  : FileDescriptor * string :=
  (f, save_path_of env output_root f).

(** Outside a dry run: the files whose destination did not exist when
    line 139 asked, the first of them at existence check number [x]. *)
Fixpoint kept (env : Env) (output_root : string) (x : nat)
         (files : list FileDescriptor) : list (FileDescriptor * string) :=
  match files with
  | [] => []
  | f :: files' =>
      if exists_reply env x then kept env output_root (S x) files'
      else task_of env output_root f :: kept env output_root (S x) files'
  end.

(** The request the resolver makes for a task, and the entry into the
    fetcher that may follow. *)
Definition request_of (mid : string) (task : FileDescriptor * string)
  : string * string :=
  (file_id (fst task), mid).

Definition fetch_of (task : FileDescriptor * string) : string * string :=
  (snd task, file_name (fst task)).

(** The link the resolver obtains from POST number [p], if it obtains one. *)
Definition link_at (env : Env) (p : nat) : outcome pyval :=
  and_then (post_reply env p) read_link.

(** In a dry run: the reports for the tasks whose resolution, starting at
    POST number [p], gives a link; a resolution that raises ends the run. *)
Fixpoint simulated (env : Env) (p : nat) (tasks : list (FileDescriptor * string))
  : list (string * string) :=
  match tasks with
  | [] => []
  | task :: tasks' =>
      match link_at env p with
      | Returns url =>
          if truthy url
          then (file_name (fst task), snd task) :: simulated env (S p) tasks'
          else simulated env (S p) tasks'
      | Raises _ => []
      end
  end.

Definition set_lists (h : gmap loc (list string)) (s : state) : state :=
  {| lists := h;
     makedirs_calls := makedirs_calls s;
     exists_calls := exists_calls s;
     post_calls := post_calls s;
     get_calls := get_calls s |}.

(** A computation leaves the component [f] of the state as it found it. *)
Definition preserves {X A} (f : state -> X) (m : M A) : Prop :=
  forall s, f (final (m s)) = f s.

(** [lg] happened, then [r]. *)
Definition after {A} (lg : list event) (r : run A) : run A :=
  {| out := out r; final := final r; log := (lg ++ log r)%list |}.

(** ** Sample data *)

(** A start state whose only list object, at address 1, is [exts]. *)
Definition start_with (exts : list string) : state :=
  {| lists := {[ 1%positive := exts ]};
     makedirs_calls := 0;
     exists_calls := 0;
     post_calls := 0;
     get_calls := 0 |}.

Definition benchy_3mf : FileDescriptor :=
  {| file_id := "101"; file_name := "benchy.3mf"; folder := Some "parts" |}.

Definition benchy_stl : FileDescriptor :=
  {| file_id := "102"; file_name := "Benchy.STL"; folder := None |}.

Definition lid_stl : FileDescriptor :=
  {| file_id := "103"; file_name := "lid.stl"; folder := Some "parts" |}.

(** The reply of the remote call: [ok] and, when given, the link. *)
Definition link_reply (is_ok : bool) (link : option string) : response :=
  {| status_code := 200;
     reason := "OK";
     json := Some (PDict [("data",
               PDict [("getDownloadLink",
                 PDict [("ok", PBool is_ok);
                        ("output",
                         PDict match link with
                               | Some u => [("link", PStr u)]
                               | None => []
                               end)])])]) |}.

(** A platform on which no folder can be made, nothing exists, and every
    request fails to connect. *)
Definition offline : Env :=
  {| os_path_join := posix_join;
     makedirs_reply := fun _ => Some OSError;
     exists_reply := fun _ => false;
     post_reply := fun _ => Raises ConnectionError;
     get_reply := fun _ => Raises ConnectionError;
     save_reply := fun _ => OpenRaises OSError |}.

(** Every request for a link is answered [ok] with the link [u], every
    download answers 503. *)
Definition unavailable_503 (u : string) : Env :=
  {| os_path_join := posix_join;
     makedirs_reply := fun _ => None;
     exists_reply := fun _ => false;
     post_reply := fun _ => Returns (link_reply true (Some u));
     get_reply := fun _ =>
       Returns {| status_code := 503; reason := "Service Unavailable"; json := None |};
     save_reply := fun _ => Writes [] None |}.

(** Links are given; the first download answers 503, the later ones answer
    200 and their two chunks reach the file. *)
Definition second_time_lucky : Env :=
  {| os_path_join := posix_join;
     makedirs_reply := fun _ => None;
     exists_reply := fun _ => false;
     post_reply := fun _ => Returns (link_reply true (Some "https://files/103"));
     get_reply := fun n =>
       match n with
       | 0 => Returns {| status_code := 503; reason := "Service Unavailable"; json := None |}
       | _ => Returns {| status_code := 200; reason := "OK"; json := None |}
       end;
     save_reply := fun _ => Writes ["solid lid"; "endsolid lid"] None |}.

(** The remote call answers [ok] but gives no link. *)
Definition linkless : Env :=
  {| os_path_join := posix_join;
     makedirs_reply := fun _ => None;
     exists_reply := fun _ => false;
     post_reply := fun _ => Returns (link_reply true None);
     get_reply := fun _ => Raises ConnectionError;
     save_reply := fun _ => OpenRaises OSError |}.

(** Everything works, and the first destination asked about is there
    already. *)
Definition first_present : Env :=
  {| os_path_join := posix_join;
     makedirs_reply := fun _ => None;
     exists_reply := fun n => match n with 0 => true | _ => false end;
     post_reply := fun _ => Returns (link_reply true (Some "https://files/103"));
     get_reply := fun _ => Returns {| status_code := 200; reason := "OK"; json := None |};
     save_reply := fun _ => Writes ["solid lid"; "endsolid lid"] None |}.

(** Everything works, but the second request for a link is answered with
    [ok] false. *)
Definition second_unavailable : Env :=
  {| os_path_join := posix_join;
     makedirs_reply := fun _ => None;
     exists_reply := fun _ => false;
     post_reply := fun n =>
       match n with
       | 1 => Returns (link_reply false None)
       | _ => Returns (link_reply true (Some "https://files/any"))
       end;
     get_reply := fun _ => Returns {| status_code := 200; reason := "OK"; json := None |};
     save_reply := fun _ => Writes ["solid"; "endsolid"] None |}.

(** Folders can be made and nothing exists yet; every request for a link
    is answered with [ok] false. *)
Definition no_links : Env :=
  {| os_path_join := posix_join;
     makedirs_reply := fun _ => None;
     exists_reply := fun _ => false;
     post_reply := fun _ => Returns (link_reply false None);
     get_reply := fun _ => Raises ConnectionError;
     save_reply := fun _ => OpenRaises OSError |}.

Definition benchy_model : Model :=
  {| model_id := "7"; stls := [benchy_3mf; benchy_stl; lid_stl] |}.

Definition one_file_model : Model :=
  {| model_id := "7"; stls := [benchy_3mf] |}.

(** A file whose folder and name try to leave the output root. *)
Definition escaping : FileDescriptor :=
  {| file_id := "104"; file_name := "/etc/passwd.stl"; folder := Some "/tmp/x" |}.

(** The first download answers 503; the second is interrupted from the
    keyboard. *)
Definition interrupted_second : Env :=
  {| os_path_join := posix_join;
     makedirs_reply := fun _ => None;
     exists_reply := fun _ => false;
     post_reply := fun _ => Returns (link_reply true (Some "https://files/103"));
     get_reply := fun n =>
       match n with
       | 0 => Returns {| status_code := 503; reason := "Service Unavailable"; json := None |}
       | _ => Raises KeyboardInterrupt
       end;
     save_reply := fun _ => Writes [] None |}.

Definition one_stl_model : Model :=
  {| model_id := "8"; stls := [lid_stl] |}.

(** A site with one page, whose script block holds the model of the
    samples, wrapped twice. *)
Definition benchy_json : pyval :=
  PDict [("data", PDict [("model", PDict [("id", PStr "7"); ("stls", PList [])])])].

Definition benchy_site : Web :=
  {| page_reply := fun url =>
       if String.eqb url "https://www.printables.com/model/7/files"
       then Returns {| head := {| status_code := 200; reason := "OK"; json := None |};
                       text := "<html>the page</html>" |}
       else Returns {| head := {| status_code := 404; reason := "Not Found"; json := None |};
                       text := EmptyString |};
     script_block := fun _ => Some "outer";
     json_loads := fun t =>
       if String.eqb t "outer" then Returns (PDict [("body", PStr "inner")])
       else if String.eqb t "inner" then Returns benchy_json
       else Raises JSONDecodeError |}.

(** The same site, but the block it holds has an empty body. *)
Definition bodiless_site : Web :=
  {| page_reply := fun _ =>
       Returns {| head := {| status_code := 200; reason := "OK"; json := None |};
                  text := "<html>the page</html>" |};
     script_block := fun _ => Some "outer";
     json_loads := fun _ => Returns (PDict [("body", PStr EmptyString)]) |}.

(** A site that cannot be reached. *)
Definition unreachable_site : Web :=
  {| page_reply := fun _ => Raises ConnectionError;
     script_block := fun _ => None;
     json_loads := fun _ => Raises JSONDecodeError |}.

(** * Properties *)

(** ** Properties of the sanitizer *)

Section Sanitizer.

Lemma char_in_spec c s : Str.char_in c s = true <-> In c (Str.chars s).
Proof.
  induction s as [|d s IH]; simpl.
  - split; [discriminate | tauto].
  - destruct (Ascii.eqb_spec c d) as [->|Hne].
    + split; auto.
    + rewrite IH. split; [auto | intros [E|H]; [congruence | exact H]].
Qed.

Lemma underscore_allowed : Str.char_in "_"%char INVALID_WINDOWS_CHARS = false.
Proof. reflexivity. Qed.

Lemma sanitize_char_allowed c :
  Str.char_in (sanitize_char c) INVALID_WINDOWS_CHARS = false.
Proof.
  unfold sanitize_char.
  destruct (Str.char_in c INVALID_WINDOWS_CHARS) eqn:E; simpl; auto.
Qed.

Lemma sanitize_char_fix c :
  Str.char_in c INVALID_WINDOWS_CHARS = false -> sanitize_char c = c.
Proof. unfold sanitize_char. intros ->. reflexivity. Qed.

Lemma join_map_length f s : String.length (Str.join_map f s) = String.length s.
Proof. induction s; simpl; congruence. Qed.

Lemma join_map_chars f s : Str.chars (Str.join_map f s) = List.map f (Str.chars s).
Proof. induction s; simpl; [reflexivity | f_equal; assumption]. Qed.

Lemma join_map_get f s i :
  String.get i (Str.join_map f s) = option_map f (String.get i s).
Proof.
  revert i; induction s as [|c s IH]; intros [|i]; simpl; auto.
Qed.

Lemma join_map_fix f s :
  (forall c, In c (Str.chars s) -> f c = c) -> Str.join_map f s = s.
Proof.
  induction s as [|c s IH]; simpl; intros H; [reflexivity|].
  rewrite H by auto. rewrite IH; auto.
Qed.

Lemma sanitize_clean s : clean (sanitize_filename s).
Proof.
  intros c. unfold sanitize_filename. rewrite join_map_chars.
  rewrite in_map_iff. intros [d [<- _]]. apply sanitize_char_allowed.
Qed.

End Sanitizer.

(** C8. For every string, [sanitize_filename] returns a string of the same
    length that contains none of the disallowed characters; at every
    position a disallowed character is replaced by the single character
    [_], and any other character is kept where it was. *)
Theorem sanitize_filename_pointwise :
  forall s : string,
    String.length (sanitize_filename s) = String.length s
    /\ (forall c, In c (Str.chars INVALID_WINDOWS_CHARS) ->
                  ~ In c (Str.chars (sanitize_filename s)))
    /\ (forall i,
          String.get i (sanitize_filename s)
          = option_map
              (fun c => if Str.char_in c INVALID_WINDOWS_CHARS then "_"%char else c)
              (String.get i s)).
Proof.
  intros s. split; [apply join_map_length|]. split.
  - intros c Hbad Hin. apply char_in_spec in Hbad.
    rewrite (sanitize_clean s c Hin) in Hbad. discriminate.
  - intros i. unfold sanitize_filename. rewrite join_map_get.
    destruct (String.get i s) as [c|]; cbn [option_map]; [|reflexivity].
    unfold sanitize_char. destruct (Str.char_in c INVALID_WINDOWS_CHARS); reflexivity.
Qed.

(** C9. [sanitize_filename] is the identity on every string that contains no
    disallowed character, and it is idempotent. *)
Theorem sanitize_filename_identity_idempotent :
  forall s : string,
    (clean s -> sanitize_filename s = s)
    /\ sanitize_filename (sanitize_filename s) = sanitize_filename s.
Proof.
  assert (Hid : forall s, clean s -> sanitize_filename s = s).
  { intros s Hs. apply join_map_fix. intros c Hc. apply sanitize_char_fix, Hs, Hc. }
  intros s. split; [apply Hid|]. apply Hid, sanitize_clean.
Qed.

Lemma sanitize_filename_identity_idempotent_witness :
  clean "benchy_v2.3mf"
  /\ sanitize_filename "benchy_v2.3mf" = "benchy_v2.3mf"
  /\ sanitize_filename (sanitize_filename "a:b/c?.stl") = sanitize_filename "a:b/c?.stl".
Proof.
  assert (Hc : clean "benchy_v2.3mf").
  { intros c Hin. simpl in Hin.
    repeat (destruct Hin as [<-|Hin]; [reflexivity|]). destruct Hin. }
  split; [exact Hc|].
  split.
  - exact (proj1 (sanitize_filename_identity_idempotent "benchy_v2.3mf") Hc).
  - exact (proj2 (sanitize_filename_identity_idempotent "a:b/c?.stl")).
Defined.

(** ** The monad *)

Section MonadFacts.

Context {A B : Type}.

Lemma bind_returns (m : M A) (k : A -> M B) s a :
  out (m s) = Returns a -> bind m k s = after (log (m s)) (k a (final (m s))).
Proof. intros H. unfold bind, after. rewrite H. reflexivity. Qed.

Lemma bind_raises (m : M A) (k : A -> M B) s e :
  out (m s) = Raises e ->
  bind m k s = {| out := Raises e; final := final (m s); log := log (m s) |}.
Proof. intros H. unfold bind. rewrite H. reflexivity. Qed.

Lemma bind_ext (m : M A) (k k' : A -> M B) s :
  (forall a s', k a s' = k' a s') -> bind m k s = bind m k' s.
Proof. intros H. unfold bind. destruct (out (m s)); [rewrite H|]; reflexivity. Qed.

Lemma bind_assoc {C} (m : M A) (k : A -> M B) (h : B -> M C) s :
  bind (bind m k) h s = bind m (fun a => bind (k a) h) s.
Proof.
  unfold bind. destruct (out (m s)) as [a|e]; cbn [out final log]; [|reflexivity].
  destruct (out (k a (final (m s)))); cbn [out final log];
    rewrite ?app_assoc; reflexivity.
Qed.

Lemma ret_bind (a : A) (k : A -> M B) s : bind (ret a) k s = k a s.
Proof. unfold bind, ret; cbn [out final log]. destruct (k a s); reflexivity. Qed.

Lemma after_nil (r : run A) : after [] r = r.
Proof. destruct r; reflexivity. Qed.

Lemma after_after lg1 lg2 (r : run A) :
  after lg1 (after lg2 r) = after (lg1 ++ lg2)%list r.
Proof. unfold after; simpl. rewrite app_assoc. reflexivity. Qed.

End MonadFacts.

Lemma set_lists_same s : set_lists (lists s) s = s.
Proof. destruct s; reflexivity. Qed.

Lemma when_print_run b m s :
  when b (print m) s
  = {| out := Returns tt; final := s; log := if b then [EvPrint m] else [] |}.
Proof. destruct b; reflexivity. Qed.

(** ** Strings *)

Section Strings.

Lemma length_append p e :
  String.length (p ++ e) = String.length p + String.length e.
Proof. induction p as [|c p IH]; simpl; [reflexivity | rewrite IH; reflexivity]. Qed.

Lemma substring_all e : substring 0 (String.length e) e = e.
Proof. induction e as [|c e IH]; simpl; [reflexivity | rewrite IH; reflexivity]. Qed.

Lemma substring_skip p e :
  substring (String.length p) (String.length e) (p ++ e) = e.
Proof. induction p as [|c p IH]; simpl; [apply substring_all | exact IH]. Qed.

Lemma substring_split n s :
  n <= String.length s ->
  s = substring 0 n s ++ substring n (String.length s - n) s.
Proof.
  revert n. induction s as [|c s IH]; intros [|n] Hn; simpl in *.
  - reflexivity.
  - lia.
  - rewrite substring_all. reflexivity.
  - change (String c s
            = String c (substring 0 n s ++ substring n (String.length s - n) s)).
    f_equal. apply IH. lia.
Qed.

(** [endswith] holds exactly of the strings that are something followed by
    the suffix. *)
Lemma endswith_suffix s e :
  Str.endswith s e = true <-> exists p, s = p ++ e.
Proof.
  unfold Str.endswith. rewrite andb_true_iff, Nat.leb_le, String.eqb_eq. split.
  - intros [Hle Hsub].
    exists (substring 0 (String.length s - String.length e) s).
    pose proof (substring_split (String.length s - String.length e) s
                  ltac:(lia)) as Hsplit.
    replace (String.length s - (String.length s - String.length e))
      with (String.length e) in Hsplit by lia.
    rewrite Hsub in Hsplit. exact Hsplit.
  - intros [p ->]. rewrite length_append. split; [lia|].
    replace (String.length p + String.length e - String.length e)
      with (String.length p) by lia.
    apply substring_skip.
Qed.

Lemma lower_length s : String.length (Str.lower s) = String.length s.
Proof. unfold Str.lower. induction s; simpl; congruence. Qed.

End Strings.

(** ** Extension fallback and file selection *)

Section Selection.

Lemma mem_In x l : Str.mem x l = true <-> In x l.
Proof.
  unfold Str.mem. rewrite existsb_exists. split.
  - intros [y [Hy E]]. apply String.eqb_eq in E. subst. exact Hy.
  - intros H. exists x. split; [exact H | apply String.eqb_refl].
Qed.

Lemma has_3mf_false files :
  has_3mf files = false
  <-> forall f, In f files -> ends_with_ci (file_name f) ".3mf" = false.
Proof.
  unfold has_3mf. induction files as [|g files IH]; simpl.
  - split; [intros _ f [] | reflexivity].
  - rewrite orb_false_iff, IH. split.
    + intros [Hg Hr] f [<-|Hf]; [exact Hg | auto].
    + intros H. split; [apply (H g); auto | intros f Hf; apply H; auto].
Qed.

Lemma fallback_appliesb_spec files exts :
  fallback_appliesb files exts = true <-> fallback_applies files exts.
Proof.
  unfold fallback_appliesb, fallback_applies.
  rewrite !andb_true_iff, !negb_true_iff, mem_In, has_3mf_false.
  rewrite <- not_true_iff_false, mem_In. tauto.
Qed.

Lemma add_stl_fallback_run_default files l verbose s :
  let exts := default [] (lists s !! l) in
  add_stl_fallback files l verbose s =
    if fallback_appliesb files exts then
      {| out := Returns tt;
         final := set_lists (<[l := (exts ++ [".stl"])%list]> (lists s)) s;
         log := if verbose then [EvPrint MsgAddingStl] else [] |}
    else {| out := Returns tt; final := s; log := [] |}.
Proof.
  intros exts.
  assert (Hload : load l s = {| out := Returns exts; final := s; log := [] |})
    by reflexivity.
  assert (Hl : default [] (lists s !! l) = exts) by reflexivity.
  unfold add_stl_fallback, fallback_appliesb.
  rewrite (bind_returns _ _ s exts) by (rewrite Hload; reflexivity).
  rewrite Hload; cbn [log final]; rewrite after_nil.
  destruct (Str.mem ".3mf" exts && negb (has_3mf files)); [|reflexivity].
  rewrite (bind_returns _ _ s exts) by (rewrite Hload; reflexivity).
  rewrite Hload; cbn [log final]; rewrite after_nil.
  destruct (Str.mem ".stl" exts); [reflexivity|].
  destruct verbose; cbv [negb andb when bind print emit append ret out final log after set_lists];
    cbn [lists makedirs_calls exists_calls post_calls get_calls];
    rewrite Hl; reflexivity.
Qed.

Lemma add_stl_fallback_run files l verbose s exts :
  lists s !! l = Some exts ->
  add_stl_fallback files l verbose s =
    if fallback_appliesb files exts then
      {| out := Returns tt;
         final := set_lists (<[l := (exts ++ [".stl"])%list]> (lists s)) s;
         log := if verbose then [EvPrint MsgAddingStl] else [] |}
    else {| out := Returns tt; final := s; log := [] |}.
Proof.
  intros Hl. rewrite add_stl_fallback_run_default. rewrite Hl. reflexivity.
Qed.

Lemma add_stl_fallback_returns files l verbose s :
  out (add_stl_fallback files l verbose s) = Returns tt.
Proof.
  rewrite add_stl_fallback_run_default.
  destruct (fallback_appliesb files (default [] (lists s !! l))); reflexivity.
Qed.

Lemma filter_extensions_run files l verbose s exts :
  lists s !! l = Some exts ->
  out (filter_extensions files l verbose s) = Returns (extensions_in_force files exts)
  /\ final (filter_extensions files l verbose s)
     = final (add_stl_fallback files l verbose s)
  /\ log (filter_extensions files l verbose s)
     = log (add_stl_fallback files l verbose s).
Proof.
  intros Hl. unfold filter_extensions, bind, extensions_in_force.
  rewrite (add_stl_fallback_run _ _ _ _ _ Hl).
  destruct (fallback_appliesb files exts); simpl.
  - rewrite lookup_insert_eq. simpl. rewrite app_nil_r. auto.
  - rewrite Hl. auto.
Qed.

Lemma select_files_out files l verbose s exts :
  lists s !! l = Some exts ->
  out (select_files files l verbose s)
  = Returns (matching (extensions_in_force files exts) files).
Proof.
  intros Hl. destruct (filter_extensions_run files l verbose s exts Hl) as [Ho _].
  unfold select_files. rewrite (bind_returns _ _ _ _ Ho). reflexivity.
Qed.

Lemma lower_dot_stl : Str.lower ".stl" = ".stl".
Proof. reflexivity. Qed.

Lemma matching_lower_case exts files :
  lower_case exts -> matching exts files = ci_matching exts files.
Proof.
  intros Hlow. unfold matching, ci_matching. apply filter_ext_in. intros f _.
  unfold Str.endswith_any, ends_with_ci.
  induction exts as [|e exts IH]; [reflexivity|]. simpl.
  rewrite (Hlow e) by (left; reflexivity).
  rewrite IH; [reflexivity|]. intros e' He'. apply Hlow. right. exact He'.
Qed.

Lemma lower_case_in_force files exts :
  lower_case exts -> lower_case (extensions_in_force files exts).
Proof.
  intros Hlow. unfold extensions_in_force.
  destruct (fallback_appliesb files exts); [|exact Hlow].
  intros e He. apply in_app_or in He. destruct He as [He|[<-|[]]]; [auto | reflexivity].
Qed.

Lemma in_force_cases files exts :
  (fallback_applies files exts -> extensions_in_force files exts = (exts ++ [".stl"])%list)
  /\ (~ fallback_applies files exts -> extensions_in_force files exts = exts).
Proof.
  unfold extensions_in_force.
  destruct (fallback_appliesb files exts) eqn:E.
  - apply fallback_appliesb_spec in E. split; [reflexivity | tauto].
  - split; [|reflexivity]. intros H. apply fallback_appliesb_spec in H. congruence.
Qed.

End Selection.

(** C2. When [.3mf] is requested, no file of the model has a name ending in
    [.3mf] (case ignored) and [.stl] is not requested, the list used by the
    filter of line 129 is the requested list followed by [.stl]; in every
    other case it is the requested list. *)
Theorem stl_fallback_rule :
  forall files (l : loc) verbose s (exts : list string),
    lists s !! l = Some exts ->
    (fallback_applies files exts ->
       out (filter_extensions files l verbose s) = Returns (exts ++ [".stl"])%list
       /\ out (select_files files l verbose s)
          = Returns (matching (exts ++ [".stl"])%list files))
    /\ (~ fallback_applies files exts ->
         out (filter_extensions files l verbose s) = Returns exts
         /\ out (select_files files l verbose s) = Returns (matching exts files)).
Proof.
  intros files l verbose s exts Hl.
  destruct (filter_extensions_run files l verbose s exts Hl) as [Ho _].
  pose proof (select_files_out files l verbose s exts Hl) as Hs.
  destruct (in_force_cases files exts) as [Hyes Hno].
  split; intros H; [rewrite (Hyes H) in * | rewrite (Hno H) in *]; auto.
Qed.

Lemma stl_fallback_rule_witness :
  out (filter_extensions [benchy_stl] 1%positive false (start_with [".3mf"]))
  = Returns [".3mf"; ".stl"]
  /\ out (filter_extensions [benchy_3mf; benchy_stl] 1%positive false
                            (start_with [".3mf"]))
     = Returns [".3mf"].
Proof.
  split.
  - apply (proj1 (stl_fallback_rule [benchy_stl] 1%positive false
                    (start_with [".3mf"]) [".3mf"] eq_refl)).
    apply fallback_appliesb_spec. vm_compute. reflexivity.
  - apply (proj2 (stl_fallback_rule [benchy_3mf; benchy_stl] 1%positive false
                    (start_with [".3mf"]) [".3mf"] eq_refl)).
    intros H. apply fallback_appliesb_spec in H. vm_compute in H. discriminate H.
Defined.

(** C1, as amended. When the requested extensions are written without
    capital letters, the orchestrator selects exactly the files whose name
    ends, case ignored, with one of the extensions in force: the requested
    ones, followed by [.stl] when the fallback of lines 123-127 applies. *)
Theorem selection_by_extension :
  forall files (l : loc) verbose s (exts : list string),
    lists s !! l = Some exts ->
    lower_case exts ->
    (fallback_applies files exts ->
       out (select_files files l verbose s)
       = Returns (ci_matching (exts ++ [".stl"])%list files))
    /\ (~ fallback_applies files exts ->
         out (select_files files l verbose s) = Returns (ci_matching exts files)).
Proof.
  intros files l verbose s exts Hl Hlow.
  pose proof (select_files_out files l verbose s exts Hl) as Hs.
  rewrite (matching_lower_case _ _ (lower_case_in_force files exts Hlow)) in Hs.
  destruct (in_force_cases files exts) as [Hyes Hno].
  split; intros H; [rewrite (Hyes H) in Hs | rewrite (Hno H) in Hs]; exact Hs.
Qed.

Lemma selection_by_extension_witness :
  out (select_files [benchy_3mf; benchy_stl; lid_stl] 1%positive false
                    (start_with [".stl"]))
  = Returns [benchy_stl; lid_stl].
Proof.
  refine (proj2 (selection_by_extension [benchy_3mf; benchy_stl; lid_stl] 1%positive
                   false (start_with [".stl"]) [".stl"] eq_refl _) _).
  - intros e [<-|[]]. reflexivity.
  - intros H. apply fallback_appliesb_spec in H. vm_compute in H. discriminate H.
Defined.

(** C1, as stated, fails twice.  A request written [.STL] selects nothing,
    although [lid.stl] ends with it when case is ignored; and a request for
    [.3mf] alone selects [lid.stl], which ends with no requested
    extension. *)
Lemma selection_not_by_requested_extension :
  (out (select_files [lid_stl] 1%positive false (start_with [".STL"])) = Returns []
   /\ ci_matching [".STL"] [lid_stl] = [lid_stl])
  /\ (out (select_files [lid_stl] 1%positive false (start_with [".3mf"]))
      = Returns [lid_stl]
      /\ ci_matching [".3mf"] [lid_stl] = []).
Proof. vm_compute. repeat split. Qed.

(** ** What a computation leaves alone *)

Section Frame.

Context {X : Type} (f : state -> X).

Lemma preserves_ret {A} (a : A) : preserves f (ret a).
Proof. intros s. reflexivity. Qed.

Lemma preserves_raise {A} e : preserves f (@raise A e).
Proof. intros s. reflexivity. Qed.

Lemma preserves_emit ev : preserves f (emit ev).
Proof. intros s. reflexivity. Qed.

Lemma preserves_lift {A} (o : outcome A) : preserves f (lift o).
Proof. destruct o; intros s; reflexivity. Qed.

Lemma preserves_bind {A B} (m : M A) (k : A -> M B) :
  preserves f m -> (forall a, preserves f (k a)) -> preserves f (bind m k).
Proof.
  intros Hm Hk s. unfold bind.
  destruct (out (m s)) as [a|e]; cbn [final]; [rewrite Hk|]; apply Hm.
Qed.

Lemma preserves_try {A} (m : M A) (h : exn -> M A) :
  preserves f m -> (forall e, preserves f (h e)) -> preserves f (try_except m h).
Proof.
  intros Hm Hh s. unfold try_except.
  destruct (out (m s)) as [a|e]; [apply Hm|].
  destruct (is_Exception e); cbn [final]; [rewrite Hh|]; apply Hm.
Qed.

Lemma preserves_when b (m : M unit) : preserves f m -> preserves f (when b m).
Proof. intros Hm. destruct b; [exact Hm | apply preserves_ret]. Qed.

End Frame.

Ltac frame_step :=
  match goal with
  | |- preserves _ (bind _ _) => apply preserves_bind; [|intros ?]
  | |- preserves _ (try_except _ _) => apply preserves_try; [|intros ?]
  | |- preserves _ (when _ _) => apply preserves_when
  | |- preserves _ (print _) => apply preserves_emit
  | |- preserves _ (emit _) => apply preserves_emit
  | |- preserves _ (ret _) => apply preserves_ret
  | |- preserves _ (raise _) => apply preserves_raise
  | |- preserves _ (lift _) => apply preserves_lift
  | |- preserves _ (if ?b then _ else _) => destruct b
  | |- preserves _ (match ?x with _ => _ end) => destruct x
  | |- preserves _ _ => assumption
  | |- preserves _ _ => intros ?; reflexivity
  end.

Ltac frame := repeat frame_step.

Section FrameOfPipeline.

Variable env : Env.
Context {X : Type} (f : state -> X).

(** The fetcher moves the GET counter and nothing else. *)
Hypothesis f_get : forall h a b c d d',
  f {| lists := h; makedirs_calls := a; exists_calls := b; post_calls := c; get_calls := d |}
  = f {| lists := h; makedirs_calls := a; exists_calls := b; post_calls := c; get_calls := d' |}.

(** The resolver moves the POST counter and nothing else; the first loop
    moves the folder and existence counters and nothing else; only
    [append] changes a list object. *)
Hypothesis f_post : forall h a b c c' d,
  f {| lists := h; makedirs_calls := a; exists_calls := b; post_calls := c; get_calls := d |}
  = f {| lists := h; makedirs_calls := a; exists_calls := b; post_calls := c'; get_calls := d |}.
Hypothesis f_makedirs : forall h a a' b c d,
  f {| lists := h; makedirs_calls := a; exists_calls := b; post_calls := c; get_calls := d |}
  = f {| lists := h; makedirs_calls := a'; exists_calls := b; post_calls := c; get_calls := d |}.
Hypothesis f_exists : forall h a b b' c d,
  f {| lists := h; makedirs_calls := a; exists_calls := b; post_calls := c; get_calls := d |}
  = f {| lists := h; makedirs_calls := a; exists_calls := b'; post_calls := c; get_calls := d |}.
Hypothesis f_lists : forall h h' a b c d,
  f {| lists := h; makedirs_calls := a; exists_calls := b; post_calls := c; get_calls := d |}
  = f {| lists := h'; makedirs_calls := a; exists_calls := b; post_calls := c; get_calls := d |}.

Lemma preserves_session_get url : preserves f (session_get env url).
Proof. intros s. unfold session_get; cbn [final]. destruct s; apply f_get. Qed.

Lemma preserves_save_body n path : preserves f (save_body env n path).
Proof.
  unfold save_body. destruct (save_reply env n) as [e|chunks stop]; [frame|].
  frame. induction chunks as [|c cs IH]; cbn [write_chunks]; frame.
Qed.

Lemma preserves_attempts todo url path name verbose :
  preserves f (attempts env todo url path name verbose).
Proof.
  induction todo as [|k todo IH]; cbn [attempts]; [frame|].
  assert (Hb : preserves f (attempt_body env url path)).
  { unfold attempt_body. apply preserves_bind; [apply preserves_session_get|].
    intros [n resp]. destruct (ok resp); frame. apply preserves_save_body. }
  frame.
Qed.

Lemma preserves_download_file url path name dry verbose :
  preserves f (download_file env url path name dry verbose).
Proof. unfold download_file. frame. apply preserves_attempts. Qed.

Lemma preserves_graphql fid mid : preserves f (graphql_download_url env fid mid).
Proof.
  unfold graphql_download_url. frame.
  intros s. unfold session_post; cbn [final]. destruct s; apply f_post.
Qed.

Lemma preserves_process_file mid task dry verbose :
  preserves f (process_file env mid task dry verbose).
Proof.
  unfold process_file. destruct task as [file path]. frame.
  - apply preserves_graphql.
  - apply preserves_download_file.
Qed.

Lemma preserves_process_remaining mid remaining dry verbose :
  preserves f (process_remaining env mid remaining dry verbose).
Proof.
  induction remaining as [|task remaining IH]; cbn [process_remaining]; frame.
  apply preserves_process_file.
Qed.

Lemma preserves_os_makedirs path : preserves f (os_makedirs env path).
Proof. intros s. unfold os_makedirs; cbn [final]. destruct s; apply f_makedirs. Qed.

Lemma preserves_os_path_exists path : preserves f (os_path_exists env path).
Proof. intros s. unfold os_path_exists; cbn [final]. destruct s; apply f_exists. Qed.

Lemma preserves_collect_remaining files root dry :
  preserves f (collect_remaining env files root dry).
Proof.
  induction files as [|file files IH]; cbn [collect_remaining]; frame.
  - apply preserves_os_makedirs.
  - apply preserves_os_path_exists.
Qed.

Lemma preserves_load l : preserves f (load l).
Proof. intros s. reflexivity. Qed.

Lemma preserves_append l x : preserves f (append l x).
Proof. intros s. unfold append; cbn [final]. destruct s; apply f_lists. Qed.

Lemma preserves_select_files files l verbose :
  preserves f (select_files files l verbose).
Proof.
  unfold select_files, filter_extensions, add_stl_fallback. frame;
    first [apply preserves_load | apply preserves_append].
Qed.

End FrameOfPipeline.

Lemma lists_after_the_loops env root mid dry verbose files s :
  lists (final (bind (collect_remaining env files root dry)
                     (fun remaining =>
                        bind (process_remaining env mid remaining dry verbose)
                             (fun _ => print MsgDone)) s))
  = lists s.
Proof.
  revert s. change (preserves lists (bind (collect_remaining env files root dry)
                     (fun remaining =>
                        bind (process_remaining env mid remaining dry verbose)
                             (fun _ => print MsgDone)))).
  frame.
  - apply preserves_collect_remaining; reflexivity.
  - apply preserves_process_remaining; reflexivity.
Qed.

Lemma download_model_files_lists env data root l dry verbose s :
  lists (final (download_model_files env data root l dry verbose s))
  = lists (final (add_stl_fallback (stls data) l verbose s)).
Proof.
  unfold download_model_files, select_files.
  assert (Hf : forall s0, exists exts,
             filter_extensions (stls data) l verbose s0
             = {| out := Returns exts;
                  final := final (add_stl_fallback (stls data) l verbose s0);
                  log := log (filter_extensions (stls data) l verbose s0) |}).
  { intros s0. unfold filter_extensions, bind.
    rewrite add_stl_fallback_returns. eexists. reflexivity. }
  destruct (Hf s) as [exts He].
  rewrite (bind_returns _ _ s (matching exts (stls data))).
  2:{ unfold bind. rewrite He. reflexivity. }
  unfold after; cbn [final].
  rewrite lists_after_the_loops.
  unfold bind at 1. rewrite He. reflexivity.
Qed.

(** C10. When the fallback applies, the list object passed as [extensions]
    holds, after the call, the requested extensions followed by [.stl];
    otherwise the store of list objects is as it was before the call.  This
    holds however the call ends, with a return or with an exception. *)
Theorem extensions_argument_mutated :
  forall env data root (l : loc) dry verbose s (exts : list string),
    lists s !! l = Some exts ->
    let r := download_model_files env data root l dry verbose s in
    (fallback_applies (stls data) exts ->
       lists (final r) = <[l := (exts ++ [".stl"])%list]> (lists s))
    /\ (~ fallback_applies (stls data) exts -> lists (final r) = lists s).
Proof.
  intros env data root l dry verbose s exts Hl r. subst r.
  rewrite download_model_files_lists, (add_stl_fallback_run _ _ _ _ _ Hl).
  destruct (fallback_appliesb (stls data) exts) eqn:E; split; intros H.
  - reflexivity.
  - apply fallback_appliesb_spec in E. tauto.
  - apply fallback_appliesb_spec in H. congruence.
  - reflexivity.
Qed.

Lemma extensions_argument_mutated_witness :
  lists (final (download_model_files offline {| model_id := "7"; stls := [lid_stl] |}
                  "out" 1%positive true false (start_with [".3mf"])))
  !! 1%positive = Some [".3mf"; ".stl"].
Proof.
  rewrite (proj1 (extensions_argument_mutated offline {| model_id := "7"; stls := [lid_stl] |}
                    "out" 1%positive true false (start_with [".3mf"]) [".3mf"] eq_refl)).
  - reflexivity.
  - apply fallback_appliesb_spec. vm_compute. reflexivity.
Defined.

(** ** Link resolver *)

Lemma graphql_download_url_out env fid mid s :
  out (graphql_download_url env fid mid s)
  = and_then (post_reply env (post_calls s)) read_link.
Proof.
  unfold graphql_download_url, bind, session_post; cbn [out final log].
  destruct (post_reply env (post_calls s)) as [resp|e]; cbn [and_then]; [|reflexivity].
  cbn [out]. destruct (read_link resp); reflexivity.
Qed.

(** C5, as amended. A request that raises, or a reply with a 4xx or 5xx
    status, makes the resolver raise.  When the reply decodes to an object
    whose [data.getDownloadLink.ok] is false the resolver returns [None];
    when it is true the resolver returns [data.getDownloadLink.output.link]
    and raises where that field is absent. *)
Theorem link_resolution_outcomes :
  forall env fid mid s,
    let r := graphql_download_url env fid mid s in
    (forall e, post_reply env (post_calls s) = Raises e -> out r = Raises e)
    /\ (forall resp,
          post_reply env (post_calls s) = Returns resp ->
          ok resp = false -> out r = Raises HTTPError)
    /\ (forall resp data d g is_ok,
          post_reply env (post_calls s) = Returns resp ->
          ok resp = true ->
          json resp = Some data ->
          subscript data "data" = Returns d ->
          subscript d "getDownloadLink" = Returns g ->
          subscript g "ok" = Returns is_ok ->
          (truthy is_ok = false -> out r = Returns PNone)
          /\ (truthy is_ok = true ->
              out r = and_then (subscript g "output") (fun o => subscript o "link"))).
Proof.
  intros env fid mid s r. subst r. rewrite graphql_download_url_out.
  split; [|split].
  - intros e ->. reflexivity.
  - intros resp -> Hok. cbn [and_then]. unfold read_link, raise_for_status.
    rewrite Hok. reflexivity.
  - intros resp data d g is_ok -> Hok Hjson Hd Hg Hk. cbn [and_then].
    unfold read_link, raise_for_status, response_json.
    rewrite Hok, Hjson. cbn [and_then]. rewrite Hd. cbn [and_then].
    rewrite Hg. cbn [and_then]. rewrite Hk. cbn [and_then].
    split; intros ->; reflexivity.
Qed.

Lemma link_resolution_outcomes_witness :
  out (graphql_download_url offline "101" "7" (start_with [".3mf"]))
  = Raises ConnectionError
  /\ out (graphql_download_url (unavailable_503 "https://files/101") "101" "7"
                               (start_with [".3mf"]))
     = Returns (PStr "https://files/101").
Proof.
  split.
  - exact (proj1 (link_resolution_outcomes offline "101" "7" (start_with [".3mf"]))
                 ConnectionError eq_refl).
  - exact (proj2 (proj2 (proj2 (link_resolution_outcomes
                                  (unavailable_503 "https://files/101") "101" "7"
                                  (start_with [".3mf"])))
                          _ _ _ _ _ eq_refl eq_refl eq_refl eq_refl eq_refl eq_refl)
                 eq_refl).
Defined.

(** C5, as stated, fails: a reply that reports [ok] but holds no link makes
    the resolver raise [KeyError]; it does not return [None]. *)
Lemma link_missing_raises :
  out (graphql_download_url linkless "101" "7" (start_with [".3mf"]))
  = Raises KeyError
  /\ out (graphql_download_url linkless "101" "7" (start_with [".3mf"]))
     <> Returns PNone.
Proof. split; [reflexivity | discriminate]. Qed.

(** ** File fetcher *)

Section Fetcher.

Variable env : Env.
Variables (url : pyval) (save_path name : string) (verbose : bool).

(** The [try] statement of lines 95-106. *)
Let guarded : M bool :=
  try_except (attempt_body env url save_path)
             (fun e => print (MsgError e) ;;; ret false).

Lemma write_chunks_run chunks s :
  write_chunks save_path chunks s
  = {| out := Returns tt; final := s; log := List.map (EvWrite save_path) chunks |}.
Proof.
  induction chunks as [|c cs IH]; [reflexivity|].
  cbn [write_chunks]. unfold bind, emit; cbn [out final log].
  rewrite IH. reflexivity.
Qed.

Lemma count_gets_app l1 l2 : count_gets (l1 ++ l2) = count_gets l1 + count_gets l2.
Proof. unfold count_gets. rewrite List.filter_app, List.length_app. reflexivity. Qed.

Lemma count_gets_writes chunks : count_gets (List.map (EvWrite save_path) chunks) = 0.
Proof. induction chunks as [|c cs IH]; [reflexivity | exact IH]. Qed.

(** One guarded attempt issues one GET; its result is read off the replies
    to that GET. *)
Lemma guarded_run s :
  let g := get_calls s in
  let r := guarded s in
  get_calls (final r) = S g
  /\ count_gets (log r) = 1
  /\ (attempt_fails env g = true -> out r = Returns false)
  /\ (attempt_succeeds env g = true ->
      out r = Returns true /\ List.last (log r) EvSleep = EvPrint (MsgSaved save_path))
  /\ (out r = Returns true -> attempt_succeeds env g = true)
  /\ (out r = Returns false -> attempt_fails env g = true).
Proof.
  unfold guarded, try_except, attempt_body, attempt_fails, attempt_succeeds,
    bind, session_get; cbn [out final log].
  destruct (get_reply env (get_calls s)) as [resp|e]; cbn [out final log].
  - destruct (ok resp); cbn [out final log andb].
    + unfold save_body.
      destruct (save_reply env (get_calls s)) as [e|chunks [e|]];
        unfold bind, print, emit, raise, ret; cbn [out final log];
        rewrite ?write_chunks_run; cbn [out final log];
        try (destruct (is_Exception e); cbn [out final log get_calls]);
        rewrite ?count_gets_app, ?count_gets_writes;
        repeat split; try reflexivity; try discriminate.
      rewrite app_nil_r. cbn [app]. rewrite !app_comm_cons. apply List.last_last.
    + unfold bind, print, emit, ret; cbn [out final log get_calls].
      repeat split; try reflexivity; try discriminate.
  - destruct (is_Exception e); unfold bind, print, emit, ret;
      cbn [out final log get_calls];
      repeat split; try reflexivity; try discriminate.
Qed.

Lemma attempts_step a todo s :
  let pre := if verbose then [EvPrint (MsgAttempt (a + 1) name)] else [] in
  let r := guarded s in
  attempts env (a :: todo) url save_path name verbose s =
    match out r with
    | Returns true => {| out := Returns true; final := final r; log := (pre ++ log r)%list |}
    | Returns false =>
        after (pre ++ log r ++ [EvSleep])%list
              (attempts env todo url save_path name verbose (final r))
    | Raises e => {| out := Raises e; final := final r; log := (pre ++ log r)%list |}
    end.
Proof.
  cbn zeta. cbn [attempts]. fold guarded.
  rewrite (bind_returns _ _ s tt) by (rewrite when_print_run; reflexivity).
  rewrite when_print_run; cbn [final log].
  destruct (out (guarded s)) as [[|]|e] eqn:Hout.
  - rewrite (bind_returns _ _ s true Hout).
    unfold after, ret; cbn [out final log]. rewrite app_nil_r. reflexivity.
  - rewrite (bind_returns _ _ s false Hout).
    rewrite (bind_returns (emit EvSleep) _ _ tt eq_refl).
    unfold after, emit; cbn [out final log]. rewrite <- !app_assoc. reflexivity.
  - rewrite (bind_raises _ _ s e Hout). reflexivity.
Qed.

Lemma count_gets_pre (b : bool) m : count_gets (if b then [EvPrint m] else []) = 0.
Proof. destruct b; reflexivity. Qed.

Lemma attempts_all_fail todo s :
  (forall k, k < List.length todo -> attempt_fails env (get_calls s + k) = true) ->
  let r := attempts env todo url save_path name verbose s in
  out r = Returns false /\ count_gets (log r) = List.length todo.
Proof.
  revert s. induction todo as [|a todo IH]; intros s Hall.
  - split; reflexivity.
  - cbn zeta. rewrite attempts_step. cbn zeta.
    destruct (guarded_run s) as (Hg & Hc & Hfail & _).
    rewrite Hfail by (rewrite <- (Nat.add_0_r (get_calls s)); apply Hall; simpl; lia).
    destruct (IH (final (guarded s))) as [Ho Hn].
    { intros k Hk. rewrite Hg. replace (S (get_calls s) + k) with (get_calls s + S k) by lia.
      apply Hall. simpl. lia. }
    unfold after; cbn [out log]. split; [exact Ho|].
    rewrite !count_gets_app, count_gets_pre, Hc, Hn. reflexivity.
Qed.

Lemma last_after_nonempty (l1 l2 : list event) d :
  l2 <> [] -> List.last (l1 ++ l2) d = List.last l2 d.
Proof.
  intros Hne. induction l1 as [|x l1 IH]; [reflexivity|].
  cbn [app]. destruct (l1 ++ l2)%list eqn:E.
  - apply app_eq_nil in E. tauto.
  - rewrite <- E in *. cbn [List.last]. rewrite E. rewrite <- E. exact IH.
Qed.

Lemma attempts_first_success todo s k :
  k < List.length todo ->
  (forall j, j < k -> attempt_fails env (get_calls s + j) = true) ->
  attempt_succeeds env (get_calls s + k) = true ->
  let r := attempts env todo url save_path name verbose s in
  out r = Returns true
  /\ count_gets (log r) = k + 1
  /\ List.last (log r) EvSleep = EvPrint (MsgSaved save_path).
Proof.
  revert s k. induction todo as [|a todo IH]; intros s k Hk Hbefore Hnow.
  - simpl in Hk. lia.
  - cbn zeta. rewrite attempts_step. cbn zeta.
    destruct (guarded_run s) as (Hg & Hc & Hfail & Hsucc & _).
    destruct k as [|k].
    + rewrite Nat.add_0_r in Hnow. destruct (Hsucc Hnow) as [Ho Hlast].
      rewrite Ho. cbn [out log]. split; [reflexivity|].
      rewrite count_gets_app, count_gets_pre, Hc. split; [reflexivity|].
      rewrite last_after_nonempty; [exact Hlast|].
      intros E. rewrite E in Hc. discriminate Hc.
    + rewrite Hfail by (rewrite <- (Nat.add_0_r (get_calls s)); apply Hbefore; lia).
      destruct (IH (final (guarded s)) k) as (Ho & Hn & Hlast).
      * simpl in Hk. lia.
      * intros j Hj. rewrite Hg.
        replace (S (get_calls s) + j) with (get_calls s + S j) by lia.
        apply Hbefore. lia.
      * rewrite Hg. replace (S (get_calls s) + k) with (get_calls s + S k) by lia.
        exact Hnow.
      * unfold after; cbn [out log]. split; [exact Ho|].
        rewrite !count_gets_app, count_gets_pre, Hc, Hn. split; [cbn; lia|].
        rewrite last_after_nonempty; [exact Hlast|].
        intros E. rewrite E in Hn. cbn in Hn. lia.
Qed.

Lemma attempts_true_only_on_success todo s :
  out (attempts env todo url save_path name verbose s) = Returns true ->
  exists k, k < List.length todo /\ attempt_succeeds env (get_calls s + k) = true.
Proof.
  revert s. induction todo as [|a todo IH]; intros s.
  - cbn. discriminate.
  - rewrite attempts_step. cbn zeta.
    destruct (guarded_run s) as (Hg & _ & _ & _ & Htrue & _).
    destruct (out (guarded s)) as [[|]|e]; cbn [out].
    + intros _. exists 0. rewrite Nat.add_0_r. split; [simpl; lia | auto].
    + unfold after; cbn [out]. intros H. destruct (IH _ H) as (k & Hk & Hs).
      exists (S k). split; [simpl; lia|].
      rewrite Hg in Hs.
      replace (get_calls s + S k) with (S (get_calls s) + k) by lia. exact Hs.
    + discriminate.
Qed.

Lemma attempts_return todo s :
  uninterrupted env ->
  exists b, out (attempts env todo url save_path name verbose s) = Returns b.
Proof.
  intros Hun. revert s. induction todo as [|a todo IH]; intros s.
  - exists false. reflexivity.
  - rewrite attempts_step. cbn zeta.
    destruct (guarded_run s) as (_ & _ & Hfail & Hsucc & _).
    destruct (Hun (get_calls s)) as [H|H].
    + rewrite (Hfail H). unfold after; cbn [out]. apply IH.
    + destruct (Hsucc H) as [-> _]. exists true. reflexivity.
Qed.

End Fetcher.

Lemma download_file_returns env url save_path name dry verbose s :
  uninterrupted env ->
  exists b, out (download_file env url save_path name dry verbose s) = Returns b.
Proof.
  intros Hun. unfold download_file.
  rewrite (bind_returns (emit (EvFetch save_path name)) _ s tt eq_refl).
  unfold after; cbn [out]. destruct dry.
  - exists true. reflexivity.
  - apply attempts_return. exact Hun.
Qed.

(** C6. Outside a dry run: when the three attempts fail the fetcher issues
    exactly three GET requests and returns [False] without raising; the
    first attempt whose reply has a success status and whose save completes
    makes it return [True] at once, with no further request; and it
    returns [True] only after such an attempt. *)
Theorem download_file_three_attempts :
  forall env url save_path name verbose s,
    let r := download_file env url save_path name false verbose s in
    let g := get_calls s in
    ((forall k, k < 3 -> attempt_fails env (g + k) = true) ->
       out r = Returns false /\ count_gets (log r) = 3)
    /\ (forall k,
          k < 3 ->
          (forall j, j < k -> attempt_fails env (g + j) = true) ->
          attempt_succeeds env (g + k) = true ->
          out r = Returns true
          /\ count_gets (log r) = k + 1
          /\ List.last (log r) EvSleep = EvPrint (MsgSaved save_path))
    /\ (out r = Returns true ->
        exists k, k < 3 /\ attempt_succeeds env (g + k) = true).
Proof.
  intros env url save_path name verbose s r g. subst r g.
  assert (E : download_file env url save_path name false verbose s
              = after [EvFetch save_path name]
                      (attempts env (seq 0 3) url save_path name verbose s))
    by reflexivity.
  rewrite E. unfold after; cbn [out log].
  split; [|split].
  - intros Hall.
    destruct (attempts_all_fail env url save_path name verbose (seq 0 3) s Hall)
      as [Ho Hn].
    split; [exact Ho | exact Hn].
  - intros k Hk Hbefore Hnow.
    destruct (attempts_first_success env url save_path name verbose (seq 0 3) s k
                Hk Hbefore Hnow) as (Ho & Hn & Hlast).
    split; [exact Ho|]. split; [exact Hn|].
    change (EvFetch save_path name
              :: log (attempts env (seq 0 3) url save_path name verbose s))
      with ([EvFetch save_path name]
              ++ log (attempts env (seq 0 3) url save_path name verbose s))%list.
    rewrite last_after_nonempty; [exact Hlast|].
    intros E0. rewrite E0 in Hn. cbn in Hn. lia.
  - apply attempts_true_only_on_success.
Qed.

Lemma download_file_three_attempts_witness :
  (out (download_file (unavailable_503 "https://files/103") (PStr "https://files/103")
          "out/parts/lid.stl" "lid.stl" false false (start_with [".stl"]))
   = Returns false
   /\ count_gets
        (log (download_file (unavailable_503 "https://files/103")
                (PStr "https://files/103") "out/parts/lid.stl" "lid.stl" false false
                (start_with [".stl"])))
      = 3)
  /\ out (download_file second_time_lucky (PStr "https://files/103")
            "out/parts/lid.stl" "lid.stl" false false (start_with [".stl"]))
     = Returns true.
Proof.
  split.
  - apply (proj1 (download_file_three_attempts (unavailable_503 "https://files/103")
                    (PStr "https://files/103") "out/parts/lid.stl" "lid.stl" false
                    (start_with [".stl"]))).
    intros k _. reflexivity.
  - apply (proj1 (proj2 (download_file_three_attempts second_time_lucky
                           (PStr "https://files/103") "out/parts/lid.stl" "lid.stl"
                           false (start_with [".stl"]))) 1).
    + lia.
    + intros j Hj. destruct j; [reflexivity | lia].
    + reflexivity.
Defined.

(** ** What a computation logs *)

Section Logs.

Context (P : event -> Prop).

Lemma emits_ret {A} (a : A) : emits P (ret a).
Proof. intros s. constructor. Qed.

Lemma emits_raise {A} e : emits P (@raise A e).
Proof. intros s. constructor. Qed.

Lemma emits_lift {A} (o : outcome A) : emits P (lift o).
Proof. destruct o; intros s; constructor. Qed.

Lemma emits_emit ev : P ev -> emits P (emit ev).
Proof. intros H s. repeat constructor. exact H. Qed.

Lemma emits_bind {A B} (m : M A) (k : A -> M B) :
  emits P m -> (forall a, emits P (k a)) -> emits P (bind m k).
Proof.
  intros Hm Hk s. unfold bind.
  destruct (out (m s)) as [a|e]; cbn [log]; [|apply Hm].
  apply Forall_app. split; [apply Hm | apply Hk].
Qed.

Lemma emits_try {A} (m : M A) (h : exn -> M A) :
  emits P m -> (forall e, emits P (h e)) -> emits P (try_except m h).
Proof.
  intros Hm Hh s. unfold try_except.
  destruct (out (m s)) as [a|e]; [apply Hm|].
  destruct (is_Exception e); cbn [log]; [|apply Hm].
  apply Forall_app. split; [apply Hm | apply Hh].
Qed.

Lemma emits_when b (m : M unit) : emits P m -> emits P (when b m).
Proof. intros Hm. destruct b; [exact Hm | apply emits_ret]. Qed.

Lemma omap_none {X} (f : event -> option X) lg :
  Forall (fun ev => f ev = None) lg -> omap f lg = [].
Proof.
  induction 1 as [|ev lg Hev _ IH]; [reflexivity|].
  cbn [omap list_omap]. rewrite Hev. exact IH.
Qed.

End Logs.

Ltac logs_step :=
  match goal with
  | |- emits _ (bind _ _) => apply emits_bind; [|intros ?]
  | |- emits _ (try_except _ _) => apply emits_try; [|intros ?]
  | |- emits _ (when _ _) => apply emits_when
  | |- emits _ (print _) => apply emits_emit
  | |- emits _ (emit _) => apply emits_emit
  | |- emits _ (ret _) => apply emits_ret
  | |- emits _ (raise _) => apply emits_raise
  | |- emits _ (lift _) => apply emits_lift
  | |- emits _ (if ?b then _ else _) => destruct b
  | |- emits _ (match ?x with _ => _ end) => destruct x
  | |- emits _ _ => assumption
  end.

Ltac logs := repeat logs_step.

Section LogsOfPipeline.

Variable env : Env.

Lemma collect_remaining_emits files root dry :
  emits first_loop_event (collect_remaining env files root dry).
Proof.
  induction files as [|file files IH]; cbn [collect_remaining]; logs;
    try exact I; intros s; repeat constructor.
Qed.

Lemma first_loop_calls_nobody lg :
  Forall first_loop_event lg ->
  resolver_calls lg = [] /\ fetcher_calls lg = [] /\ dry_reports lg = []
  /\ Forall (fun ev => fetch_io ev = false) lg.
Proof.
  intros H. repeat split.
  1-3: apply omap_none; eapply Forall_impl; [exact H|];
       intros [[]| | | | | | | |]; cbn; tauto.
  eapply Forall_impl; [exact H|]. intros [[]| | | | | | | |]; cbn; tauto.
Qed.

End LogsOfPipeline.

(** ** The second loop, one file at a time *)

Section OneFile.

Variable env : Env.

Lemma graphql_download_url_run fid mid s :
  graphql_download_url env fid mid s
  = {| out := link_at env (post_calls s);
       final := final (session_post env fid mid s);
       log := [EvPost fid mid (post_reply env (post_calls s))] |}.
Proof.
  unfold graphql_download_url, link_at, bind, session_post; cbn [out final log].
  destruct (post_reply env (post_calls s)) as [resp|e]; cbn [and_then]; [|reflexivity].
  destruct (read_link resp); reflexivity.
Qed.

Lemma process_file_run mid file path dry (verbose : bool) s :
  let name := file_name file in
  let getting := if verbose then [EvPrint (MsgGetting name)] else [] in
  let post := EvPost (file_id file) mid (post_reply env (post_calls s)) in
  let s1 := final (session_post env (file_id file) mid s) in
  process_file env mid (file, path) dry verbose s =
    match link_at env (post_calls s) with
    | Raises e => {| out := Raises e; final := s1; log := (getting ++ [post])%list |}
    | Returns url =>
        if truthy url then
          let rf := download_file env url path name dry verbose s1 in
          match out rf with
          | Returns true =>
              {| out := Returns tt; final := final rf;
                 log := (getting ++ [post] ++ log rf)%list |}
          | Returns false =>
              {| out := Returns tt; final := final rf;
                 log := (getting ++ [post] ++ log rf ++ [EvPrint (MsgCouldNot name)])%list |}
          | Raises e =>
              {| out := Raises e; final := final rf;
                 log := (getting ++ [post] ++ log rf)%list |}
          end
        else
          {| out := Returns tt; final := s1;
             log := (getting ++ [post; EvPrint (MsgNoLink name)])%list |}
    end.
Proof.
  cbn zeta. unfold process_file.
  rewrite (bind_returns _ _ s tt) by (rewrite when_print_run; reflexivity).
  rewrite when_print_run; cbn [final log].
  pose proof (graphql_download_url_run (file_id file) mid s) as Hg.
  destruct (link_at env (post_calls s)) as [url|e] eqn:Hlink.
  - rewrite (bind_returns _ _ s url) by (rewrite Hg; reflexivity).
    rewrite Hg; cbn [final log].
    destruct (truthy url).
    + set (rf := download_file env url path (file_name file) dry verbose _).
      destruct (out rf) as [[|]|e] eqn:Hrf.
      * rewrite (bind_returns _ _ _ true Hrf).
        unfold after, ret; cbn [out final log negb]. rewrite app_nil_r. reflexivity.
      * rewrite (bind_returns _ _ _ false Hrf).
        unfold after, print, emit; cbn [out final log negb]. reflexivity.
      * rewrite (bind_raises _ _ _ e Hrf). reflexivity.
    + reflexivity.
  - rewrite (bind_raises _ _ s e) by (rewrite Hg; reflexivity).
    rewrite Hg. reflexivity.
Qed.

Lemma process_remaining_app mid pre rest dry verbose s :
  process_remaining env mid (pre ++ rest) dry verbose s
  = bind (process_remaining env mid pre dry verbose)
         (fun _ => process_remaining env mid rest dry verbose) s.
Proof.
  revert s. induction pre as [|task pre IH]; intros s.
  - cbn [app process_remaining]. rewrite ret_bind. reflexivity.
  - cbn [app process_remaining]. rewrite bind_assoc.
    apply bind_ext. intros _ s'. apply IH.
Qed.

Lemma download_file_log url path name dry verbose s :
  exists rest,
    log (download_file env url path name dry verbose s) = EvFetch path name :: rest
    /\ Forall fetch_step_event rest.
Proof.
  unfold download_file.
  rewrite (bind_returns (emit (EvFetch path name)) _ s tt eq_refl).
  unfold after; cbn [log emit final]. eexists. split; [reflexivity|].
  revert s.
  change (emits fetch_step_event
            (if dry then print (MsgDryRun name path);;; ret true
             else attempts env (seq 0 3) url path name verbose)).
  destruct dry; [logs; exact I|].
  generalize (seq 0 3). intros todo.
  induction todo as [|a todo IH]; cbn [attempts]; logs; try exact I.
  - unfold attempt_body. apply emits_bind.
    + intros s. repeat constructor.
    + intros [n resp]. logs; try exact I.
      unfold save_body. logs; try exact I.
      match goal with |- emits _ (write_chunks _ ?cs) => induction cs end;
        cbn [write_chunks]; logs; exact I.
Qed.

Lemma fetch_step_calls_nobody lg :
  Forall fetch_step_event lg -> resolver_calls lg = [] /\ fetcher_calls lg = [].
Proof.
  intros H. split; apply omap_none; (eapply Forall_impl; [exact H|]);
    intros [[]| | | | | | | |]; cbn; tauto.
Qed.

Lemma download_file_calls url path name dry verbose s :
  resolver_calls (log (download_file env url path name dry verbose s)) = []
  /\ fetcher_calls (log (download_file env url path name dry verbose s))
     = [(path, name)].
Proof.
  destruct (download_file_log url path name dry verbose s) as (rest & -> & Hrest).
  destruct (fetch_step_calls_nobody rest Hrest) as [Hr Hf].
  unfold resolver_calls, fetcher_calls in *. cbn [omap list_omap resolver_call fetcher_call].
  rewrite Hr, Hf. split; reflexivity.
Qed.

Lemma calls_of_getting (b : bool) m :
  resolver_calls (if b then [EvPrint m] else []) = []
  /\ fetcher_calls (if b then [EvPrint m] else []) = [].
Proof. destruct b; split; reflexivity. Qed.

(** One iteration asks the resolver once and enters the fetcher at most
    once, for the file at hand. *)
Lemma process_file_calls mid file path dry verbose s :
  let r := process_file env mid (file, path) dry verbose s in
  resolver_calls (log r) = [(file_id file, mid)]
  /\ (fetcher_calls (log r) = [] \/ fetcher_calls (log r) = [(path, file_name file)])
  /\ post_calls (final r) = S (post_calls s).
Proof.
  cbn zeta. rewrite process_file_run. cbn zeta.
  assert (Hp : forall url,
             post_calls (final (download_file env url path (file_name file) dry verbose
                                  (final (session_post env (file_id file) mid s))))
             = S (post_calls s)).
  { intros url. rewrite (preserves_download_file env post_calls); reflexivity. }
  destruct (calls_of_getting verbose (MsgGetting (file_name file))) as [Hg1 Hg2].
  destruct (link_at env (post_calls s)) as [url|e].
  - destruct (truthy url).
    + destruct (download_file_calls url path (file_name file) dry verbose
                  (final (session_post env (file_id file) mid s))) as [Hr Hf].
      specialize (Hp url).
      destruct (out (download_file env url path (file_name file) dry verbose _))
        as [[|]|e]; cbn [out final log];
        unfold resolver_calls, fetcher_calls in *;
        rewrite ?omap_app, ?Hg1, ?Hg2, ?Hr, ?Hf; cbn; auto.
    + cbn [out final log]. unfold resolver_calls, fetcher_calls in *.
      rewrite ?omap_app, ?Hg1, ?Hg2. cbn; auto.
  - cbn [out final log]. unfold resolver_calls, fetcher_calls in *.
    rewrite ?omap_app, ?Hg1, ?Hg2. cbn; auto.
Qed.

(** The second loop asks the resolver for the tasks of [remaining], in order
    and up to the point where it stops, and enters the fetcher for some of
    them. *)
Lemma process_remaining_calls mid remaining dry verbose s :
  let r := process_remaining env mid remaining dry verbose s in
  resolver_calls (log r) `prefix_of` List.map (request_of mid) remaining
  /\ (out r = Returns tt -> resolver_calls (log r) = List.map (request_of mid) remaining)
  /\ fetcher_calls (log r) `sublist_of` List.map fetch_of remaining.
Proof.
  revert s. induction remaining as [|[file path] remaining IH]; intros s.
  - cbn. split; [reflexivity|]. split; [reflexivity | constructor].
  - cbn zeta. cbn [process_remaining List.map].
    destruct (process_file_calls mid file path dry verbose s) as (Hr & Hf & _).
    unfold bind.
    destruct (out (process_file env mid (file, path) dry verbose s)) as [[]|e];
      cbn [out final log].
    + destruct (IH (final (process_file env mid (file, path) dry verbose s)))
        as (IH1 & IH2 & IH3).
      unfold resolver_calls, fetcher_calls in *. rewrite !omap_app, Hr.
      split; [|split].
      * apply (prefix_app [request_of mid (file, path)]). exact IH1.
      * intros Ho. rewrite (IH2 Ho). reflexivity.
      * destruct Hf as [-> | ->].
        -- apply sublist_cons. exact IH3.
        -- apply (sublist_skip (fetch_of (file, path))). exact IH3.
    + unfold resolver_calls, fetcher_calls in *. rewrite Hr.
      split; [|split].
      * exists (List.map (request_of mid) remaining). reflexivity.
      * discriminate.
      * destruct Hf as [-> | ->].
        -- apply sublist_nil_l.
        -- apply (sublist_skip (fetch_of (file, path))). apply sublist_nil_l.
Qed.

Lemma process_file_returns mid task dry verbose s :
  resolver_answers env -> uninterrupted env ->
  out (process_file env mid task dry verbose s) = Returns tt.
Proof.
  intros Hres Hun. destruct task as [file path].
  rewrite process_file_run. cbn zeta.
  destruct (Hres (post_calls s)) as [url Hurl]. unfold link_at. rewrite Hurl.
  destruct (truthy url); [|reflexivity].
  destruct (download_file_returns env url path (file_name file) dry verbose
              (final (session_post env (file_id file) mid s)) Hun) as [[|] ->];
    reflexivity.
Qed.

Lemma process_remaining_returns mid remaining dry verbose s :
  resolver_answers env -> uninterrupted env ->
  out (process_remaining env mid remaining dry verbose s) = Returns tt.
Proof.
  intros Hres Hun. revert s. induction remaining as [|task remaining IH]; intros s.
  - reflexivity.
  - cbn [process_remaining].
    rewrite (bind_returns _ _ s tt (process_file_returns mid task dry verbose s Hres Hun)).
    unfold after; cbn [out]. apply IH.
Qed.

End OneFile.

(** C4. Take a run of the second loop that has dealt with the tasks [before]
    and comes to the file [file].  If the resolver returns no link for it,
    the run prints the no-link notice for [file] and goes on with the tasks
    [later]; if a link is returned and the fetch returns [False], the run
    prints the could-not-download notice and goes on with [later] as
    well.  And when the resolver never raises and no download is
    interrupted, the loop returns normally after asking the resolver about
    every task, in order. *)
Theorem failures_do_not_halt :
  forall env mid dry (verbose : bool) before file path later s,
    let name := file_name file in
    let r1 := process_remaining env mid before dry verbose s in
    let getting := if verbose then [EvPrint (MsgGetting name)] else [] in
    let asked := EvPost (file_id file) mid (post_reply env (post_calls (final r1))) in
    let s1 := final (session_post env (file_id file) mid (final r1)) in
    (forall url,
        out r1 = Returns tt ->
        link_at env (post_calls (final r1)) = Returns url ->
        truthy url = false ->
        process_remaining env mid (before ++ (file, path) :: later) dry verbose s
        = after (log r1 ++ getting ++ [asked; EvPrint (MsgNoLink name)])
                (process_remaining env mid later dry verbose s1))
    /\ (forall url,
          out r1 = Returns tt ->
          link_at env (post_calls (final r1)) = Returns url ->
          truthy url = true ->
          let rf := download_file env url path name dry verbose s1 in
          out rf = Returns false ->
          process_remaining env mid (before ++ (file, path) :: later) dry verbose s
          = after (log r1 ++ getting ++ [asked] ++ log rf ++ [EvPrint (MsgCouldNot name)])
                  (process_remaining env mid later dry verbose (final rf)))
    /\ (resolver_answers env ->
        uninterrupted env ->
        let r := process_remaining env mid (before ++ (file, path) :: later) dry verbose s in
        out r = Returns tt
        /\ resolver_calls (log r)
           = List.map (request_of mid) (before ++ (file, path) :: later)).
Proof.
  intros env mid dry verbose before file path later s name r1 getting asked s1.
  assert (Hstep : out r1 = Returns tt ->
            process_remaining env mid (before ++ (file, path) :: later) dry verbose s
            = after (log r1)
                (bind (process_file env mid (file, path) dry verbose)
                      (fun _ => process_remaining env mid later dry verbose) (final r1))).
  { intros H1. rewrite process_remaining_app.
    rewrite (bind_returns (process_remaining env mid before dry verbose) _ s tt H1).
    reflexivity. }
  split; [|split].
  - intros url H1 Hlink Hfalse. rewrite (Hstep H1).
    pose proof (process_file_run env mid file path dry verbose (final r1)) as Hrun.
    cbn zeta in Hrun. rewrite Hlink, Hfalse in Hrun.
    rewrite (bind_returns _ _ _ tt) by (rewrite Hrun; reflexivity).
    rewrite Hrun; cbn [final log]. rewrite after_after. reflexivity.
  - intros url H1 Hlink Htrue rf Hrf. rewrite (Hstep H1).
    pose proof (process_file_run env mid file path dry verbose (final r1)) as Hrun.
    cbn zeta in Hrun. rewrite Hlink, Htrue in Hrun. fold s1 name rf in Hrun.
    rewrite Hrf in Hrun.
    rewrite (bind_returns _ _ _ tt) by (rewrite Hrun; reflexivity).
    rewrite Hrun; cbn [final log]. rewrite after_after. reflexivity.
  - intros Hres Hun r.
    pose proof (process_remaining_returns env mid (before ++ (file, path) :: later)
                  dry verbose s Hres Hun) as Ho.
    split; [exact Ho|].
    apply (process_remaining_calls env mid (before ++ (file, path) :: later)
             dry verbose s). exact Ho.
Qed.

(** ** The first loop *)

Section FirstLoop.

Variable env : Env.
Variable root : string.

(** What the first loop hands to the second. *)
Let target (dry : bool) (x : nat) (files : list FileDescriptor) :=
  if dry then List.map (task_of env root) files else kept env root x files.

Lemma collect_remaining_out dry files s :
  let r := collect_remaining env files root dry s in
  (forall rem, out r = Returns rem -> rem = target dry (exists_calls s) files)
  /\ ((forall i, i < List.length files ->
                 makedirs_reply env (makedirs_calls s + i) = None) ->
      out r = Returns (target dry (exists_calls s) files)).
Proof.
  revert s. induction files as [|file files IH]; intros s.
  - cbn. split; [intros rem [= <-] | intros _]; destruct dry; reflexivity.
  - cbn zeta. cbn [collect_remaining].
    destruct (makedirs_reply env (makedirs_calls s)) as [e|] eqn:Hmk.
    + rewrite (bind_raises _ _ s e)
        by (unfold os_makedirs; cbn [out]; rewrite Hmk; reflexivity).
      cbn [out]. split; [discriminate|].
      intros H. specialize (H 0 ltac:(simpl; lia)).
      rewrite Nat.add_0_r in H. congruence.
    + rewrite (bind_returns _ _ s tt)
        by (unfold os_makedirs; cbn [out]; rewrite Hmk; reflexivity).
      unfold after; cbn [out].
      set (s1 := final (os_makedirs env (save_dir_of env root file) s)).
      rewrite (bind_returns (os_path_exists env (save_path_of env root file)) _ s1
                 (exists_reply env (exists_calls s)) eq_refl).
      unfold after; cbn [out].
      set (s2 := final (os_path_exists env (save_path_of env root file) s1)).
      assert (Hx : exists_calls s2 = S (exists_calls s)) by reflexivity.
      assert (Hm : makedirs_calls s2 = S (makedirs_calls s)) by reflexivity.
      destruct (IH s2) as [IH1 IH2]. rewrite Hx in IH1, IH2.
      assert (Hshift : (forall i, i < List.length (file :: files) ->
                          makedirs_reply env (makedirs_calls s + i) = None) ->
                       forall i, i < List.length files ->
                          makedirs_reply env (makedirs_calls s2 + i) = None).
      { intros H i Hi. rewrite Hm.
        replace (S (makedirs_calls s) + i) with (makedirs_calls s + S i) by lia.
        apply H. simpl. lia. }
      unfold target in *. cbn [kept List.map].
      destruct dry; destruct (exists_reply env (exists_calls s));
        cbn [andb negb].
      1,2,4:
        (destruct (out (collect_remaining env files root _ s2)) as [rest|e] eqn:Hrest;
         [ rewrite (bind_returns _ _ s2 rest Hrest); unfold after, ret; cbn [out];
           split;
           [ intros rem [= <-]; f_equal; apply IH1; reflexivity
           | intros H; f_equal; f_equal; apply IH1; reflexivity ]
         | rewrite (bind_raises _ _ s2 e Hrest); cbn [out];
           split; [discriminate | intros H; specialize (IH2 (Hshift H)); discriminate] ]).
      rewrite (bind_returns (print _) _ s2 tt eq_refl). unfold after; cbn [out].
      split; [exact IH1 | intros H; apply IH2, Hshift, H].
Qed.

End FirstLoop.

(** ** The whole run *)

Section WholeRun.

Variable env : Env.

Lemma select_files_emits files l verbose :
  emits (fun ev => ev = EvPrint MsgAddingStl) (select_files files l verbose).
Proof.
  unfold select_files, filter_extensions, add_stl_fallback.
  logs; try reflexivity; intros s; constructor.
Qed.

Lemma selection_calls_nobody lg :
  Forall (fun ev => ev = EvPrint MsgAddingStl) lg ->
  resolver_calls lg = [] /\ fetcher_calls lg = [] /\ dry_reports lg = []
  /\ Forall (fun ev => fetch_io ev = false) lg.
Proof.
  intros H. repeat split.
  1-3: apply omap_none; eapply Forall_impl; [exact H|]; intros ev ->; reflexivity.
  eapply Forall_impl; [exact H|]. intros ev ->. reflexivity.
Qed.

Lemma log_then_print {A} (m : M A) msg s :
  log (bind m (fun _ => print msg) s)
  = (log (m s) ++ match out (m s) with
                  | Returns _ => [EvPrint msg]
                  | Raises _ => []
                  end)%list.
Proof.
  unfold bind. destruct (out (m s)); cbn [log]; [reflexivity|].
  rewrite app_nil_r. reflexivity.
Qed.

(** The log of a run: the selection, the first loop, and, when the first
    loop returns, the second loop and the closing message. *)
Lemma download_model_files_log data root l dry verbose s files :
  out (select_files (stls data) l verbose s) = Returns files ->
  let rs := select_files (stls data) l verbose s in
  let rc := collect_remaining env files root dry (final rs) in
  log (download_model_files env data root l dry verbose s)
  = (log rs ++ log rc
       ++ match out rc with
          | Raises _ => []
          | Returns remaining =>
              let rp := process_remaining env (model_id data) remaining dry verbose
                                          (final rc) in
              log rp ++ match out rp with
                        | Returns _ => [EvPrint MsgDone]
                        | Raises _ => []
                        end
          end)%list.
Proof.
  intros Hsel. cbn zeta. unfold download_model_files.
  rewrite (bind_returns _ _ s files Hsel). unfold after; cbn [log]. f_equal.
  unfold bind at 1.
  destruct (out (collect_remaining env files root dry _)) as [remaining|e]; cbn [log].
  - f_equal. apply log_then_print.
  - rewrite app_nil_r. reflexivity.
Qed.

Lemma select_files_counters files l verbose s :
  let s0 := final (select_files files l verbose s) in
  makedirs_calls s0 = makedirs_calls s
  /\ exists_calls s0 = exists_calls s
  /\ post_calls s0 = post_calls s.
Proof.
  cbn zeta. repeat split.
  - apply (preserves_select_files makedirs_calls). reflexivity.
  - apply (preserves_select_files exists_calls). reflexivity.
  - apply (preserves_select_files post_calls). reflexivity.
Qed.

Lemma done_calls_nobody {A} (o : outcome A) :
  let lg := match o with Returns _ => [EvPrint MsgDone] | Raises _ => [] end in
  resolver_calls lg = [] /\ fetcher_calls lg = [] /\ dry_reports lg = []
  /\ Forall (fun ev => fetch_io ev = false) lg.
Proof. destruct o; cbn; repeat split; repeat constructor. Qed.

End WholeRun.

(** C3. Outside a dry run, let [todo] be the selected files whose
    destination did not exist when line 139 asked.  The resolver is asked
    about files of [todo] only, in their order, and the fetcher is entered
    for files of [todo] only: a file whose destination exists gets neither
    call.  The first loop itself raises nothing on a skip: when no folder
    creation raises it returns [todo]. *)
Theorem existing_destination_skipped :
  forall env data root (l : loc) verbose s files,
    out (select_files (stls data) l verbose s) = Returns files ->
    let r := download_model_files env data root l false verbose s in
    let todo := kept env root (exists_calls s) files in
    resolver_calls (log r) `prefix_of` List.map (request_of (model_id data)) todo
    /\ fetcher_calls (log r) `sublist_of` List.map fetch_of todo
    /\ (forall s',
          (forall i, i < List.length files ->
                     makedirs_reply env (makedirs_calls s' + i) = None) ->
          out (collect_remaining env files root false s')
          = Returns (kept env root (exists_calls s') files)).
Proof.
  intros env data root l verbose s files Hsel r todo. subst r todo.
  split; [|split].
  3:{ intros s' H. apply (collect_remaining_out env root false files s'). exact H. }
  all: rewrite (download_model_files_log env data root l false verbose s files Hsel);
    cbn zeta;
    destruct (selection_calls_nobody _ (select_files_emits (stls data) l verbose s))
      as (Hs1 & Hs2 & _);
    destruct (first_loop_calls_nobody _
                (collect_remaining_emits env files root false
                   (final (select_files (stls data) l verbose s))))
      as (Hc1 & Hc2 & _);
    destruct (select_files_counters (stls data) l verbose s) as (_ & Hx & _);
    pose proof (proj1 (collect_remaining_out env root false files
                         (final (select_files (stls data) l verbose s)))) as Hrem;
    cbn zeta in Hrem; rewrite Hx in Hrem;
    unfold resolver_calls, fetcher_calls in *;
    rewrite !omap_app, ?Hs1, ?Hs2, ?Hc1, ?Hc2; cbn [app];
    destruct (out (collect_remaining env files root false _)) as [remaining|e].
  - rewrite <- (Hrem remaining eq_refl).
    destruct (process_remaining_calls env (model_id data) remaining false verbose
                (final (collect_remaining env files root false
                          (final (select_files (stls data) l verbose s)))))
      as (Hp & _ & _).
    destruct (done_calls_nobody
                (out (process_remaining env (model_id data) remaining false verbose
                        (final (collect_remaining env files root false
                                  (final (select_files (stls data) l verbose s)))))))
      as (Hd & _).
    cbn zeta in *. unfold resolver_calls in *. rewrite omap_app, Hd, app_nil_r.
    exact Hp.
  - apply prefix_nil.
  - rewrite <- (Hrem remaining eq_refl).
    destruct (process_remaining_calls env (model_id data) remaining false verbose
                (final (collect_remaining env files root false
                          (final (select_files (stls data) l verbose s)))))
      as (_ & _ & Hp).
    destruct (done_calls_nobody
                (out (process_remaining env (model_id data) remaining false verbose
                        (final (collect_remaining env files root false
                                  (final (select_files (stls data) l verbose s)))))))
      as (_ & Hd & _).
    cbn zeta in *. unfold fetcher_calls in *. rewrite omap_app, Hd, app_nil_r.
    exact Hp.
  - apply sublist_nil_l.
Qed.

Lemma existing_destination_skipped_witness :
  resolver_calls
    (log (download_model_files first_present benchy_model "out" 1%positive false false
            (start_with [".3mf"; ".stl"])))
  `prefix_of` [("102", "7"); ("103", "7")].
Proof.
  exact (proj1 (existing_destination_skipped first_present benchy_model "out" 1%positive
                  false (start_with [".3mf"; ".stl"])
                  [benchy_3mf; benchy_stl; lid_stl] eq_refl)).
Defined.

Lemma failures_do_not_halt_witness :
  process_remaining second_unavailable "7"
    [(benchy_3mf, "out/parts/benchy.3mf"); (benchy_stl, "out/Benchy.STL");
     (lid_stl, "out/parts/lid.stl")] false false (start_with [".3mf"; ".stl"])
  = after
      (log (process_remaining second_unavailable "7"
              [(benchy_3mf, "out/parts/benchy.3mf")] false false
              (start_with [".3mf"; ".stl"]))
       ++ [EvPost "102" "7" (Returns (link_reply false None));
           EvPrint (MsgNoLink "Benchy.STL")])
      (process_remaining second_unavailable "7" [(lid_stl, "out/parts/lid.stl")]
         false false
         (final (session_post second_unavailable "102" "7"
                   (final (process_remaining second_unavailable "7"
                             [(benchy_3mf, "out/parts/benchy.3mf")] false false
                             (start_with [".3mf"; ".stl"])))))).
Proof.
  exact (proj1 (failures_do_not_halt second_unavailable "7" false false
                  [(benchy_3mf, "out/parts/benchy.3mf")] benchy_stl "out/Benchy.STL"
                  [(lid_stl, "out/parts/lid.stl")] (start_with [".3mf"; ".stl"]))
               PNone eq_refl eq_refl eq_refl).
Defined.

(** ** Dry runs *)

Section DryRun.

Variable env : Env.

Lemma download_file_dry url path name verbose s :
  download_file env url path name true verbose s
  = {| out := Returns true; final := s;
       log := [EvFetch path name; EvPrint (MsgDryRun name path)] |}.
Proof. reflexivity. Qed.

Lemma process_file_dry mid file path (verbose : bool) s :
  let name := file_name file in
  let getting := if verbose then [EvPrint (MsgGetting name)] else [] in
  let asked := EvPost (file_id file) mid (post_reply env (post_calls s)) in
  let s1 := final (session_post env (file_id file) mid s) in
  process_file env mid (file, path) true verbose s =
    match link_at env (post_calls s) with
    | Raises e => {| out := Raises e; final := s1; log := (getting ++ [asked])%list |}
    | Returns url =>
        {| out := Returns tt; final := s1;
           log := (getting ++ [asked]
                     ++ if truthy url
                        then [EvFetch path name; EvPrint (MsgDryRun name path)]
                        else [EvPrint (MsgNoLink name)])%list |}
    end.
Proof.
  cbn zeta. rewrite process_file_run. cbn zeta.
  destruct (link_at env (post_calls s)) as [url|e]; [|reflexivity].
  destruct (truthy url); [|reflexivity].
  rewrite download_file_dry. reflexivity.
Qed.

Lemma quiet_getting (b : bool) m :
  dry_reports (if b then [EvPrint (MsgGetting m)] else []) = []
  /\ Forall (fun ev => fetch_io ev = false) (if b then [EvPrint (MsgGetting m)] else []).
Proof. destruct b; split; repeat constructor. Qed.

(** In a dry run the second loop does none of the fetch step's traffic,
    and it reports the tasks for which a link was resolved. *)
Lemma process_remaining_dry mid remaining verbose s :
  let r := process_remaining env mid remaining true verbose s in
  Forall (fun ev => fetch_io ev = false) (log r)
  /\ dry_reports (log r) = simulated env (post_calls s) remaining.
Proof.
  revert s. induction remaining as [|[file path] remaining IH]; intros s.
  - split; [constructor | reflexivity].
  - cbn zeta. cbn [process_remaining simulated fst snd].
    pose proof (process_file_dry mid file path verbose s) as Hrun. cbn zeta in Hrun.
    destruct (quiet_getting verbose (file_name file)) as [Hg1 Hg2].
    destruct (link_at env (post_calls s)) as [url|e].
    + rewrite (bind_returns _ _ s tt) by (rewrite Hrun; reflexivity).
      rewrite Hrun. unfold after; cbn [final log].
      destruct (IH (final (session_post env (file_id file) mid s))) as [IH1 IH2].
      change (post_calls (final (session_post env (file_id file) mid s)))
        with (S (post_calls s)) in IH2.
      split.
      * rewrite !Forall_app. split; [split; [exact Hg2|split]|exact IH1].
        -- repeat constructor.
        -- destruct (truthy url); repeat constructor.
      * unfold dry_reports in *. rewrite !omap_app, Hg1, IH2.
        destruct (truthy url); reflexivity.
    + rewrite (bind_raises _ _ s e) by (rewrite Hrun; reflexivity).
      rewrite Hrun; cbn [log]. split.
      * rewrite Forall_app. split; [exact Hg2 | repeat constructor].
      * unfold dry_reports in *. rewrite omap_app, Hg1. reflexivity.
Qed.

End DryRun.

(** C7, as amended. With the dry-run flag set: the fetcher returns [True]
    after printing its report and nothing else; the run does none of the
    fetch step's requests or waits and opens and writes no file; every
    selected file is handed to the second loop, whether its destination
    exists or not; and, provided no folder creation raises, the reports
    printed are those of the selected files for which the resolver, which
    is still asked, returns a link (up to a resolution that raises). *)
Theorem dry_run_effects :
  forall env data root (l : loc) verbose s files,
    out (select_files (stls data) l verbose s) = Returns files ->
    let r := download_model_files env data root l true verbose s in
    let tasks := List.map (task_of env root) files in
    (forall url path name s',
        download_file env url path name true verbose s'
        = {| out := Returns true; final := s';
             log := [EvFetch path name; EvPrint (MsgDryRun name path)] |})
    /\ Forall (fun ev => fetch_io ev = false) (log r)
    /\ (forall s' remaining,
          out (collect_remaining env files root true s') = Returns remaining ->
          remaining = tasks)
    /\ ((forall i, i < List.length files ->
                   makedirs_reply env (makedirs_calls s + i) = None) ->
        dry_reports (log r) = simulated env (post_calls s) tasks).
Proof.
  intros env data root l verbose s files Hsel r tasks. subst r tasks.
  split; [intros; apply download_file_dry|].
  pose proof (download_model_files_log env data root l true verbose s files Hsel) as Hlog.
  cbn zeta in Hlog.
  destruct (selection_calls_nobody _ (select_files_emits (stls data) l verbose s))
    as (_ & _ & Hs3 & Hs4).
  set (s0 := final (select_files (stls data) l verbose s)) in *.
  destruct (first_loop_calls_nobody _ (collect_remaining_emits env files root true s0))
    as (_ & _ & Hc3 & Hc4).
  destruct (select_files_counters (stls data) l verbose s) as (Hm & _ & Hp).
  fold s0 in Hm, Hp.
  destruct (collect_remaining_out env root true files s0) as [Hrem Hdone].
  cbn zeta in Hrem, Hdone.
  split; [|split].
  - rewrite Hlog. rewrite !Forall_app. split; [exact Hs4|]. split; [exact Hc4|].
    destruct (out (collect_remaining env files root true s0)) as [remaining|e];
      [|constructor].
    cbn zeta. rewrite Forall_app. split.
    + apply process_remaining_dry.
    + apply (done_calls_nobody (out (process_remaining env (model_id data) remaining
                                       true verbose _))).
  - intros s' remaining H.
    apply (proj1 (collect_remaining_out env root true files s') remaining H).
  - intros Hfolders. rewrite Hm in Hdone. specialize (Hdone Hfolders).
    rewrite Hlog, Hdone. cbn zeta.
    unfold dry_reports in *. rewrite !omap_app, Hs3, Hc3. cbn [app].
    destruct (done_calls_nobody
                (out (process_remaining env (model_id data)
                        (List.map (task_of env root) files) true verbose
                        (final (collect_remaining env files root true s0)))))
      as (_ & _ & Hd & _).
    cbn zeta in Hd. unfold dry_reports in Hd. rewrite Hd, app_nil_r.
    rewrite (proj2 (process_remaining_dry env (model_id data) _ verbose _)).
    f_equal. rewrite <- Hp.
    apply (preserves_collect_remaining env post_calls); reflexivity.
Qed.

Lemma dry_run_effects_witness :
  dry_reports
    (log (download_model_files second_unavailable benchy_model "out" 1%positive true
            false (start_with [".3mf"; ".stl"])))
  = [("benchy.3mf", "out/parts/benchy.3mf"); ("lid.stl", "out/parts/lid.stl")].
Proof.
  exact (proj2 (proj2 (proj2 (dry_run_effects second_unavailable benchy_model "out"
                                1%positive false (start_with [".3mf"; ".stl"])
                                [benchy_3mf; benchy_stl; lid_stl] eq_refl)))
               (fun i _ => eq_refl)).
Defined.

(** C7, as stated, fails.  In this dry run one file is selected; its folder
    is created, which changes the file system, and no simulated success is
    reported for it, because the resolver returns no link. *)
Lemma dry_run_creates_folder_and_may_report_nothing :
  out (select_files [benchy_3mf] 1%positive false (start_with [".3mf"]))
  = Returns [benchy_3mf]
  /\ out (download_model_files no_links one_file_model "out" 1%positive true false
            (start_with [".3mf"]))
     = Returns tt
  /\ In (EvMakedirs "out/parts" None)
        (log (download_model_files no_links one_file_model "out" 1%positive true false
                (start_with [".3mf"])))
  /\ dry_reports
       (log (download_model_files no_links one_file_model "out" 1%positive true false
               (start_with [".3mf"])))
     = [].
Proof. vm_compute. repeat split. left. reflexivity. Qed.

(** * Further properties *)

(** ** The sanitizer and the destination of a file *)



Lemma sanitized_not_absolute s : Str.startswith (sanitize_filename s) "/" = false.
Proof.
  destruct s as [|c s]; [reflexivity|].
  cbn [sanitize_filename Str.join_map Str.startswith].
  destruct (Ascii.eqb_spec "/"%char (sanitize_char c)) as [E|_]; [|reflexivity].
  pose proof (sanitize_char_allowed c) as H. rewrite <- E in H. discriminate H.
Qed.

Lemma posix_join_relative a b :
  Str.startswith b "/" = false ->
  exists sep, (sep = EmptyString \/ sep = "/") /\ posix_join a b = a ++ sep ++ b.
Proof.
  intros Hb. unfold posix_join. rewrite Hb.
  destruct (String.eqb a EmptyString || Str.endswith a "/").
  - exists EmptyString. split; [left; reflexivity | reflexivity].
  - exists "/". split; [right; reflexivity | reflexivity].
Qed.

Lemma append_assoc (a b c : string) : (a ++ b) ++ c = a ++ b ++ c.
Proof.
  induction a as [|x a IH]; [reflexivity|].
  change (String x ((a ++ b) ++ c) = String x (a ++ b ++ c)). f_equal. exact IH.
Qed.

(** X2. Where paths are joined as on POSIX, the destination of a file is
    the output root followed by the sanitized folder and the sanitized
    name, each preceded by at most one separator: whatever the model says,
    the path is not absolute on its own and gains no further level. *)
Theorem destination_under_output_root :
  forall env root f,
    os_path_join env = posix_join ->
    exists sep1 sep2,
      (sep1 = EmptyString \/ sep1 = "/")
      /\ (sep2 = EmptyString \/ sep2 = "/")
      /\ save_path_of env root f
         = root ++ sep1 ++ sanitize_filename (default EmptyString (folder f))
                ++ sep2 ++ sanitize_filename (file_name f)
      /\ Str.char_in "/" (sanitize_filename (default EmptyString (folder f))) = false
      /\ Str.char_in "/" (sanitize_filename (file_name f)) = false.
Proof.
  intros env root f Hjoin. unfold save_path_of, save_dir_of. rewrite Hjoin.
  destruct (posix_join_relative root _
              (sanitized_not_absolute (default EmptyString (folder f))))
    as (sep1 & H1 & E1).
  destruct (posix_join_relative
              (posix_join root (sanitize_filename (default EmptyString (folder f)))) _
              (sanitized_not_absolute (file_name f)))
    as (sep2 & H2 & E2).
  exists sep1, sep2. split; [exact H1|]. split; [exact H2|]. split.
  - rewrite E2, E1, !append_assoc. reflexivity.
  - assert (Hno : forall s, Str.char_in "/" (sanitize_filename s) = false).
    { intros s. destruct (Str.char_in "/" (sanitize_filename s)) eqn:E; [|reflexivity].
      apply char_in_spec in E. apply (sanitize_clean s) in E. discriminate E. }
    split; apply Hno.
Qed.

Lemma destination_under_output_root_witness :
  exists sep1 sep2,
    (sep1 = EmptyString \/ sep1 = "/")
    /\ (sep2 = EmptyString \/ sep2 = "/")
    /\ save_path_of no_links "out" escaping
       = "out" ++ sep1 ++ sanitize_filename (default EmptyString (folder escaping))
               ++ sep2 ++ sanitize_filename (file_name escaping)
    /\ Str.char_in "/" (sanitize_filename (default EmptyString (folder escaping))) = false
    /\ Str.char_in "/" (sanitize_filename (file_name escaping)) = false.
Proof. exact (destination_under_output_root no_links "out" escaping eq_refl). Defined.

(** ** Addresses *)

Section Addresses.

Lemma last_char_append p c : last_char (p ++ String c EmptyString) = Some c.
Proof.
  induction p as [|x p IH]; [reflexivity|].
  change (last_char (String x (p ++ String c EmptyString)) = Some c).
  cbn [last_char]. destruct (p ++ String c EmptyString) eqn:E; [|exact IH].
  destruct p; discriminate E.
Qed.

Lemma last_char_suffix p e :
  e <> EmptyString -> last_char (p ++ e) = last_char e.
Proof.
  intros He. induction p as [|x p IH]; [reflexivity|].
  change (last_char (String x (p ++ e)) = last_char e).
  cbn [last_char]. destruct (p ++ e) eqn:E; [|exact IH].
  destruct p; [exfalso; exact (He E) | discriminate E].
Qed.

(** A string that ends with a suffix ends with the suffix's last character. *)
Lemma endswith_last s e :
  e <> EmptyString -> Str.endswith s e = true -> last_char s = last_char e.
Proof.
  intros He H. apply endswith_suffix in H. destruct H as [p ->].
  apply last_char_suffix, He.
Qed.

Lemma rstrip_slash_keep p t :
  rstrip_slash t <> EmptyString -> rstrip_slash (p ++ t) = p ++ rstrip_slash t.
Proof.
  intros Ht. induction p as [|x p IH]; [reflexivity|].
  change (rstrip_slash (String x (p ++ t)) = String x (p ++ rstrip_slash t)).
  cbn [rstrip_slash]. rewrite IH.
  destruct (p ++ rstrip_slash t) eqn:E; [|reflexivity].
  destruct p; [exfalso; exact (Ht E) | discriminate E].
Qed.

Lemma rstrip_slash_drop p : rstrip_slash (p ++ "/") = rstrip_slash p.
Proof.
  induction p as [|x p IH]; [reflexivity|].
  change (rstrip_slash (String x (p ++ "/")) = rstrip_slash (String x p)).
  cbn [rstrip_slash]. rewrite IH. reflexivity.
Qed.

Lemma rstrip_slash_unslashed s c :
  last_char s = Some c -> c <> "/"%char -> rstrip_slash s = s.
Proof.
  induction s as [|x s IH]; [discriminate|].
  destruct s as [|y s].
  - cbn. intros [= ->] Hc. destruct (Ascii.eqb_spec c "/"); [contradiction | reflexivity].
  - intros Hl Hc. cbn [last_char] in Hl.
    change (rstrip_slash (String x (String y s)))
      with (match rstrip_slash (String y s) with
            | EmptyString => if Ascii.eqb x "/" then EmptyString else String x EmptyString
            | t => String x t
            end).
    rewrite (IH Hl Hc). reflexivity.
Qed.

Lemma files_url_suffixed url :
  Str.endswith url "/files" = true -> files_url url = url.
Proof. intros H. unfold files_url. rewrite H. reflexivity. Qed.

Lemma files_url_ends url : Str.endswith (files_url url) "/files" = true.
Proof.
  unfold files_url. destruct (Str.endswith url "/files") eqn:E; [exact E|].
  cbn [negb]. apply endswith_suffix. eexists. reflexivity.
Qed.



End Addresses.

(** X3. The address asked for always ends with [/files]; an address that
    already does is left alone, so the rewriting of lines 31-32 changes
    nothing when applied twice. *)
Theorem files_url_normal :
  forall url : string,
    Str.endswith (files_url url) "/files" = true
    /\ (Str.endswith url "/files" = true -> files_url url = url)
    /\ files_url (files_url url) = files_url url.
Proof.
  intros url. split; [apply files_url_ends|]. split; [apply files_url_suffixed|].
  apply files_url_suffixed, files_url_ends.
Qed.

Lemma files_url_normal_witness :
  files_url "https://www.printables.com/model/3161/files"
  = "https://www.printables.com/model/3161/files".
Proof.
  exact (proj1 (proj2 (files_url_normal "https://www.printables.com/model/3161/files"))
               eq_refl).
Defined.

(** X4. Trailing slashes are dropped before [/files] is added, as many as
    there are; but an address that ends with [/files/] gets a second
    [/files], because line 31 looks for the suffix before the slash is
    stripped. *)
Theorem files_url_trailing_slash :
  forall url : string,
    (Str.endswith url "/files" = false -> files_url (url ++ "/") = files_url url)
    /\ (Str.endswith url "/files" = true ->
        files_url (url ++ "/") = url ++ "/files").
Proof.
  intros url.
  assert (Hslash : Str.endswith (url ++ "/") "/files" = false).
  { destruct (Str.endswith (url ++ "/") "/files") eqn:E; [|reflexivity].
    apply endswith_last in E; [|discriminate].
    rewrite last_char_append in E. discriminate E. }
  split; intros H; unfold files_url; rewrite Hslash; cbn [negb];
    rewrite rstrip_slash_drop.
  - rewrite H. reflexivity.
  - f_equal. apply (rstrip_slash_unslashed url "s"); [|discriminate].
    apply endswith_last in H; [exact H | discriminate].
Qed.

Lemma files_url_trailing_slash_witness :
  files_url "https://www.printables.com/model/3161///"
  = files_url "https://www.printables.com/model/3161//"
  /\ files_url "https://www.printables.com/model/3161/files/"
     = "https://www.printables.com/model/3161/files/files".
Proof.
  split.
  - exact (proj1 (files_url_trailing_slash "https://www.printables.com/model/3161//")
                 eq_refl).
  - exact (proj2 (files_url_trailing_slash "https://www.printables.com/model/3161/files")
                 eq_refl).
Defined.



(** ** Extensions *)

Section Extensions.

Lemma dotted_starts e : Str.startswith (dotted e) "." = true.
Proof.
  unfold dotted. destruct (Str.startswith e ".") eqn:E; [exact E|].
  destruct e; reflexivity.
Qed.

Lemma lower_char_not_upper c : Str.is_upper (Str.lower_char c) = false.
Proof. destruct c as [[] [] [] [] [] [] [] []]; reflexivity. Qed.

Lemma has_capital_lower s : has_capital (Str.lower s) = false.
Proof.
  unfold has_capital, Str.lower. induction s as [|c s IH]; [reflexivity|].
  cbn [Str.join_map Str.chars list_ascii_of_string existsb].
  rewrite lower_char_not_upper. exact IH.
Qed.

Lemma has_capital_append p e : has_capital (p ++ e) = has_capital p || has_capital e.
Proof.
  unfold has_capital, Str.chars. induction p as [|c p IH]; [reflexivity|].
  change (list_ascii_of_string (String c p ++ e))
    with (c :: list_ascii_of_string (p ++ e)).
  cbn [existsb list_ascii_of_string]. rewrite IH. apply orb_assoc.
Qed.

(** The lower-cased name of a file ends with no extension that has a
    capital in it. *)
Lemma capital_never_suffix name e :
  has_capital e = true -> Str.endswith (Str.lower name) e = false.
Proof.
  intros He. destruct (Str.endswith (Str.lower name) e) eqn:E; [|reflexivity].
  apply endswith_suffix in E. destruct E as [p Hp].
  pose proof (has_capital_lower name) as Hl. rewrite Hp, has_capital_append, He in Hl.
  rewrite orb_true_r in Hl. discriminate Hl.
Qed.

Lemma has_capital_dotted e : has_capital (dotted e) = has_capital e.
Proof. unfold dotted. destruct (Str.startswith e "."); reflexivity. Qed.

Lemma endswith_any_without_capitals name exts :
  Str.endswith_any (Str.lower name) exts
  = Str.endswith_any (Str.lower name)
      (List.filter (fun e => negb (has_capital e)) exts).
Proof.
  unfold Str.endswith_any. induction exts as [|e exts IH]; [reflexivity|].
  cbn [existsb List.filter]. destruct (has_capital e) eqn:He; cbn [negb].
  - rewrite (capital_never_suffix name e He). exact IH.
  - cbn [existsb]. rewrite IH. reflexivity.
Qed.

Lemma endswith_empty s : Str.endswith s EmptyString = true.
Proof.
  apply endswith_suffix. exists s. induction s as [|c s IH]; [reflexivity|].
  change (String c s = String c (s ++ EmptyString)). f_equal. exact IH.
Qed.

Lemma matching_nil files : matching [] files = [].
Proof. unfold matching. induction files as [|f files IH]; [reflexivity | exact IH]. Qed.

Lemma matching_all exts files :
  (forall f, In f files -> Str.endswith_any (Str.lower (file_name f)) exts = true) ->
  matching exts files = files.
Proof.
  unfold matching. induction files as [|f files IH]; intros H; [reflexivity|].
  cbn [List.filter]. rewrite (H f) by (left; reflexivity).
  f_equal. apply IH. intros g Hg. apply H. right. exact Hg.
Qed.

Lemma in_force_includes files exts e :
  In e exts -> In e (extensions_in_force files exts).
Proof.
  intros He. unfold extensions_in_force.
  destruct (fallback_appliesb files exts); [apply in_or_app; left|]; exact He.
Qed.

End Extensions.

(** X6. Line 183 puts a dot in front of an extension that has none: the
    result always starts with a dot, a dotted extension is left as it is,
    doing it twice changes nothing, and the case of the letters is kept. *)
Theorem dotted_extension :
  forall e : string,
    Str.startswith (dotted e) "." = true
    /\ (Str.startswith e "." = true -> dotted e = e)
    /\ dotted (dotted e) = dotted e
    /\ has_capital (dotted e) = has_capital e.
Proof.
  intros e. split; [apply dotted_starts|]. split.
  - intros H. unfold dotted. rewrite H. reflexivity.
  - split; [|apply has_capital_dotted].
    unfold dotted at 1. rewrite dotted_starts. reflexivity.
Qed.

Lemma dotted_extension_witness : dotted ".3mf" = ".3mf".
Proof. exact (proj1 (proj2 (dotted_extension ".3mf")) eq_refl). Defined.

(** X7. An extension with a capital letter in it never selects a file:
    line 129 compares lower-cased names with the extensions as they were
    typed, so the filter gives the same files as if those extensions had
    been left out of the request. *)
Theorem capital_extension_selects_nothing :
  forall (ext : list string) (files : list FileDescriptor),
    matching (dotted_extensions ext) files
    = matching (dotted_extensions (List.filter (fun e => negb (has_capital e)) ext))
               files.
Proof.
  intros ext files. unfold matching. apply filter_ext. intros f.
  rewrite endswith_any_without_capitals. f_equal.
  unfold dotted_extensions. induction ext as [|e ext IH]; [reflexivity|].
  cbn [List.map List.filter]. rewrite has_capital_dotted.
  destruct (has_capital e); cbn [negb List.map]; [exact IH | f_equal; exact IH].
Qed.

(** X8. With an empty list of extensions nothing is selected, and the run
    does nothing but print its closing message: no folder is made, nothing
    is asked of the resolver, the list object is left as it is. *)
Theorem no_extension_no_work :
  forall env data root (l : loc) dry verbose s,
    lists s !! l = Some [] ->
    download_model_files env data root l dry verbose s
    = {| out := Returns tt; final := s; log := [EvPrint MsgDone] |}.
Proof.
  intros env data root l dry verbose s Hl.
  unfold download_model_files, select_files, filter_extensions.
  rewrite !bind_assoc.
  rewrite (bind_returns _ _ s tt)
    by (rewrite (add_stl_fallback_run _ _ _ _ _ Hl); reflexivity).
  rewrite (add_stl_fallback_run _ _ _ _ _ Hl). cbn [fallback_appliesb Str.mem existsb andb].
  cbn [final log]. rewrite after_nil.
  rewrite (bind_returns (load l) _ s []) by (unfold load; rewrite Hl; reflexivity).
  unfold load at 1 2; cbn [final log]. rewrite after_nil.
  rewrite ret_bind, matching_nil. reflexivity.
Qed.

Lemma no_extension_no_work_witness :
  download_model_files first_present benchy_model "out" 1%positive false true
    (start_with [])
  = {| out := Returns tt; final := start_with []; log := [EvPrint MsgDone] |}.
Proof.
  exact (no_extension_no_work first_present benchy_model "out" 1%positive false true
           (start_with []) eq_refl).
Defined.

(** X9. An empty string among the extensions selects every file of the
    model, since every name ends with it. *)
Theorem empty_extension_selects_all :
  forall files (l : loc) verbose s (exts : list string),
    lists s !! l = Some exts ->
    In EmptyString exts ->
    out (select_files files l verbose s) = Returns files.
Proof.
  intros files l verbose s exts Hl Hin.
  rewrite (select_files_out files l verbose s exts Hl). f_equal.
  apply matching_all. intros f _. unfold Str.endswith_any.
  apply existsb_exists. exists EmptyString.
  split; [apply in_force_includes, Hin | apply endswith_empty].
Qed.

Lemma empty_extension_selects_all_witness :
  out (select_files [benchy_3mf; benchy_stl; lid_stl] 1%positive false
         (start_with [".3mf"; EmptyString]))
  = Returns [benchy_3mf; benchy_stl; lid_stl].
Proof.
  apply (empty_extension_selects_all [benchy_3mf; benchy_stl; lid_stl] 1%positive false
           (start_with [".3mf"; EmptyString]) [".3mf"; EmptyString] eq_refl).
  right. left. reflexivity.
Defined.

(** ** The first loop, step by step *)

Section FirstLoopSteps.

Variable env : Env.
Variable root : string.

(** One turn of the first loop. *)
Lemma collect_remaining_cons file files dry s :
  let dir := save_dir_of env root file in
  let path := save_path_of env root file in
  let s1 := final (os_makedirs env dir s) in
  let present := exists_reply env (exists_calls s) in
  let rc := collect_remaining env files root dry
              (final (os_path_exists env path s1)) in
  collect_remaining env (file :: files) root dry s =
    match makedirs_reply env (makedirs_calls s) with
    | Some e => {| out := Raises e; final := s1; log := [EvMakedirs dir (Some e)] |}
    | None =>
        {| out := if present && negb dry then out rc
                  else match out rc with
                       | Returns rest => Returns ((file, path) :: rest)
                       | Raises e => Raises e
                       end;
           final := final rc;
           log := ([EvMakedirs dir None; EvExists path present]
                     ++ (if present && negb dry then [EvPrint (MsgAlready path)] else [])
                     ++ log rc)%list |}
    end.
Proof.
  cbn zeta. cbn [collect_remaining].
  destruct (makedirs_reply env (makedirs_calls s)) as [e|] eqn:Hmk.
  - rewrite (bind_raises _ _ s e)
      by (unfold os_makedirs; cbn [out]; rewrite Hmk; reflexivity).
    unfold os_makedirs; cbn [final log]. rewrite Hmk. reflexivity.
  - rewrite (bind_returns _ _ s tt)
      by (unfold os_makedirs; cbn [out]; rewrite Hmk; reflexivity).
    set (s1 := final (os_makedirs env (save_dir_of env root file) s)).
    rewrite (bind_returns (os_path_exists env (save_path_of env root file)) _ s1
               (exists_reply env (exists_calls s)) eq_refl).
    set (s2 := final (os_path_exists env (save_path_of env root file) s1)).
    unfold os_makedirs at 1; cbn [log]. rewrite Hmk.
    unfold os_path_exists at 1; cbn [log].
    change (exists_calls s1) with (exists_calls s).
    destruct (exists_reply env (exists_calls s) && negb dry).
    + rewrite (bind_returns (print _) _ s2 tt eq_refl).
      unfold after, print, emit; cbn [out final log]. reflexivity.
    + destruct (out (collect_remaining env files root dry s2)) as [rest|e] eqn:Hrest.
      * rewrite (bind_returns _ _ s2 rest Hrest).
        unfold after, ret; cbn [out final log app]. rewrite app_nil_r. reflexivity.
      * rewrite (bind_raises _ _ s2 e Hrest). reflexivity.
Qed.

Lemma folders_made_all files dry s :
  (forall i, i < List.length files ->
             makedirs_reply env (makedirs_calls s + i) = None) ->
  folders_made (log (collect_remaining env files root dry s))
  = List.map (save_dir_of env root) files.
Proof.
  revert s. induction files as [|file files IH]; intros s H; [reflexivity|].
  rewrite collect_remaining_cons. cbn zeta.
  pose proof (H 0 ltac:(simpl; lia)) as H0. rewrite Nat.add_0_r in H0. rewrite H0.
  cbn [log]. unfold folders_made in *. rewrite !omap_app.
  cbn [omap list_omap folder_made List.map app].
  replace (omap folder_made
             (if exists_reply env (exists_calls s) && negb dry
              then [EvPrint (MsgAlready (save_path_of env root file))] else []))
    with (@nil string) by (destruct (_ && _); reflexivity).
  cbn [app]. f_equal. apply IH. intros i Hi.
  change (makedirs_calls (final (os_path_exists env (save_path_of env root file)
                                   (final (os_makedirs env (save_dir_of env root file) s)))))
    with (S (makedirs_calls s)).
  replace (S (makedirs_calls s) + i) with (makedirs_calls s + S i) by lia.
  apply H. simpl. lia.
Qed.

(** A folder that cannot be made ends the first loop with the exception. *)
Lemma collect_remaining_folder_fails files dry s i e :
  i < List.length files ->
  (forall j, j < i -> makedirs_reply env (makedirs_calls s + j) = None) ->
  makedirs_reply env (makedirs_calls s + i) = Some e ->
  out (collect_remaining env files root dry s) = Raises e.
Proof.
  revert s i. induction files as [|file files IH]; intros s i Hi Hbefore Hat.
  - simpl in Hi. lia.
  - rewrite collect_remaining_cons. cbn zeta. destruct i as [|i].
    + rewrite Nat.add_0_r in Hat. rewrite Hat. reflexivity.
    + pose proof (Hbefore 0 ltac:(lia)) as H0. rewrite Nat.add_0_r in H0. rewrite H0.
      cbn [out].
      rewrite (IH _ i); [destruct (_ && _); reflexivity | simpl in Hi; lia | |].
      * intros j Hj.
        change (makedirs_calls (final (os_path_exists env (save_path_of env root file)
                                   (final (os_makedirs env (save_dir_of env root file) s)))))
          with (S (makedirs_calls s)).
        replace (S (makedirs_calls s) + j) with (makedirs_calls s + S j) by lia.
        apply Hbefore. lia.
      * change (makedirs_calls (final (os_path_exists env (save_path_of env root file)
                                   (final (os_makedirs env (save_dir_of env root file) s)))))
          with (S (makedirs_calls s)).
        replace (S (makedirs_calls s) + i) with (makedirs_calls s + S i) by lia.
        exact Hat.
Qed.

End FirstLoopSteps.

(** ** The whole run, by its parts *)

Section RunByParts.

Variable env : Env.

Lemma process_remaining_emits mid remaining dry verbose :
  emits second_loop_event (process_remaining env mid remaining dry verbose).
Proof.
  induction remaining as [|[file path] remaining IH]; cbn [process_remaining]; logs.
  unfold process_file. logs; try exact I.
  - unfold graphql_download_url. logs. intros s. repeat constructor.
  - intros s.
    match goal with
    | |- Forall _ (log (download_file _ ?u _ _ _ _ _)) =>
        destruct (download_file_log env u path (file_name file) dry verbose s)
          as (rest & -> & Hrest)
    end.
    constructor; [exact I|]. eapply Forall_impl; [exact Hrest|].
    intros [[]| | | | | | | |]; cbn; tauto.
Qed.

Lemma said_done_app l1 l2 : said_done (l1 ++ l2) = said_done l1 || said_done l2.
Proof. unfold said_done. apply existsb_app. Qed.

Lemma not_said_done (P : event -> Prop) lg :
  (forall ev, P ev -> ev <> EvPrint MsgDone) -> Forall P lg -> said_done lg = false.
Proof.
  intros HP H. unfold said_done. induction H as [|ev lg Hev _ IH]; [reflexivity|].
  cbn [existsb]. rewrite IH, orb_false_r.
  specialize (HP ev Hev). destruct ev as [[]| | | | | | | |]; try reflexivity.
  congruence.
Qed.

Lemma quiet_parts data root l dry verbose s files remaining :
  said_done (log (select_files (stls data) l verbose s)) = false
  /\ said_done (log (collect_remaining env files root dry s)) = false
  /\ said_done (log (process_remaining env (model_id data) remaining dry verbose s))
     = false.
Proof.
  split; [|split].
  - apply (not_said_done _ _ (fun ev (H : ev = EvPrint MsgAddingStl) =>
                                ltac:(subst; discriminate))).
    apply select_files_emits.
  - apply (not_said_done first_loop_event);
      [intros [[]| | | | | | | |]; cbn; (tauto || discriminate)|].
    apply collect_remaining_emits.
  - apply (not_said_done second_loop_event);
      [intros [[]| | | | | | | |]; cbn; (tauto || discriminate)|].
    apply process_remaining_emits.
Qed.

Lemma download_model_files_out data root l dry verbose s files :
  out (select_files (stls data) l verbose s) = Returns files ->
  let rc := collect_remaining env files root dry
              (final (select_files (stls data) l verbose s)) in
  out (download_model_files env data root l dry verbose s)
  = match out rc with
    | Raises e => Raises e
    | Returns remaining =>
        match out (process_remaining env (model_id data) remaining dry verbose
                     (final rc)) with
        | Returns _ => Returns tt
        | Raises e => Raises e
        end
    end.
Proof.
  intros Hsel. cbn zeta. unfold download_model_files.
  rewrite (bind_returns _ _ s files Hsel). unfold after; cbn [out].
  unfold bind at 1.
  destruct (out (collect_remaining env files root dry _)) as [remaining|e];
    cbn [out]; [|reflexivity].
  unfold bind.
  destruct (out (process_remaining env (model_id data) remaining dry verbose _))
    as [[]|e]; reflexivity.
Qed.

End RunByParts.

Section RunFacts.

Variable env : Env.

Lemma second_loop_makes_no_folder lg :
  Forall second_loop_event lg ->
  folders_made lg = [] /\ Forall (fun ev => first_loop_io ev = false) lg.
Proof.
  intros H. split.
  - apply omap_none. eapply Forall_impl; [exact H|].
    intros [[]| | | | | | | |]; cbn; tauto.
  - eapply Forall_impl; [exact H|]. intros [[]| | | | | | | |]; cbn; tauto.
Qed.

Lemma selection_makes_no_folder lg :
  Forall (fun ev => ev = EvPrint MsgAddingStl) lg ->
  folders_made lg = [] /\ Forall (fun ev => second_loop_io ev = false) lg.
Proof.
  intros H. split.
  - apply omap_none. eapply Forall_impl; [exact H|]. intros ev ->. reflexivity.
  - eapply Forall_impl; [exact H|]. intros ev ->. reflexivity.
Qed.

Lemma first_loop_asks_nobody lg :
  Forall first_loop_event lg -> Forall (fun ev => second_loop_io ev = false) lg.
Proof.
  intros H. eapply Forall_impl; [exact H|]. intros [[]| | | | | | | |]; cbn; tauto.
Qed.

Lemma done_makes_no_folder {A} (o : outcome A) :
  let lg := match o with Returns _ => [EvPrint MsgDone] | Raises _ => [] end in
  folders_made lg = [] /\ Forall (fun ev => first_loop_io ev = false) lg.
Proof. destruct o; cbn; split; repeat constructor. Qed.

End RunFacts.

(** X10. Whether the run is a dry run or not, and whether a file is then
    skipped or not, [os.makedirs] is called once for every selected file, in
    order, on the folder of that file, as long as none of the calls raises;
    and it is called for nothing else. *)
Theorem folder_made_for_every_selected_file :
  forall env data root (l : loc) dry verbose s files,
    out (select_files (stls data) l verbose s) = Returns files ->
    (forall i, i < List.length files ->
               makedirs_reply env (makedirs_calls s + i) = None) ->
    folders_made (log (download_model_files env data root l dry verbose s))
    = List.map (save_dir_of env root) files.
Proof.
  intros env data root l dry verbose s files Hsel Hfolders.
  rewrite (download_model_files_log env data root l dry verbose s files Hsel).
  cbn zeta. unfold folders_made. rewrite !omap_app.
  destruct (selection_makes_no_folder _ (select_files_emits (stls data) l verbose s))
    as [Hs _].
  destruct (select_files_counters (stls data) l verbose s) as (Hm & _ & _).
  unfold folders_made in Hs. rewrite Hs. cbn [app].
  pose proof (folders_made_all env root files dry
                (final (select_files (stls data) l verbose s))) as Hc.
  rewrite Hm in Hc. unfold folders_made in Hc. rewrite (Hc Hfolders).
  rewrite <- (app_nil_r (List.map (save_dir_of env root) files)) at 2. f_equal.
  destruct (out (collect_remaining env files root dry _)) as [remaining|e];
    [|reflexivity].
  cbn zeta. rewrite omap_app.
  destruct (second_loop_makes_no_folder _
              (process_remaining_emits env (model_id data) remaining dry verbose
                 (final (collect_remaining env files root dry
                           (final (select_files (stls data) l verbose s))))))
    as [Hp _].
  unfold folders_made in Hp. rewrite Hp.
  apply (done_makes_no_folder
           (out (process_remaining env (model_id data) remaining dry verbose _))).
Qed.

Lemma folder_made_for_every_selected_file_witness :
  folders_made (log (download_model_files first_present benchy_model "out" 1%positive
                       true false (start_with [".3mf"; ".stl"])))
  = ["out/parts"; "out/"; "out/parts"].
Proof.
  exact (folder_made_for_every_selected_file first_present benchy_model "out" 1%positive
           true false (start_with [".3mf"; ".stl"]) [benchy_3mf; benchy_stl; lid_stl]
           eq_refl (fun i _ => eq_refl)).
Defined.

(** X11. When a folder cannot be made the run ends there with the exception
    of [os.makedirs]: nothing has been asked of the resolver, the fetcher
    has not been entered, and the closing message is not printed, whatever
    the files that came before. *)
Theorem folder_failure_stops_the_run :
  forall env data root (l : loc) dry verbose s files i e,
    out (select_files (stls data) l verbose s) = Returns files ->
    i < List.length files ->
    (forall j, j < i -> makedirs_reply env (makedirs_calls s + j) = None) ->
    makedirs_reply env (makedirs_calls s + i) = Some e ->
    let r := download_model_files env data root l dry verbose s in
    out r = Raises e
    /\ resolver_calls (log r) = []
    /\ fetcher_calls (log r) = []
    /\ said_done (log r) = false.
Proof.
  intros env data root l dry verbose s files i e Hsel Hi Hbefore Hat r. subst r.
  destruct (select_files_counters (stls data) l verbose s) as (Hm & _ & _).
  assert (Hrc : out (collect_remaining env files root dry
                       (final (select_files (stls data) l verbose s))) = Raises e).
  { apply (collect_remaining_folder_fails env root files dry _ i e Hi); rewrite Hm;
      assumption. }
  rewrite (download_model_files_out env data root l dry verbose s files Hsel).
  rewrite (download_model_files_log env data root l dry verbose s files Hsel).
  cbn zeta. rewrite Hrc. rewrite app_nil_r.
  destruct (selection_calls_nobody _ (select_files_emits (stls data) l verbose s))
    as (Hs1 & Hs2 & _).
  destruct (first_loop_calls_nobody _
              (collect_remaining_emits env files root dry
                 (final (select_files (stls data) l verbose s))))
    as (Hc1 & Hc2 & _).
  destruct (quiet_parts env data root l dry verbose s files []) as (Hq1 & _).
  destruct (quiet_parts env data root l dry verbose
              (final (select_files (stls data) l verbose s)) files [])
    as (_ & Hq2 & _).
  unfold resolver_calls, fetcher_calls in *.
  rewrite !omap_app, said_done_app, Hs1, Hs2, Hc1, Hc2, Hq1, Hq2.
  repeat split; reflexivity.
Qed.

Lemma folder_failure_stops_the_run_witness :
  out (download_model_files offline benchy_model "out" 1%positive false false
         (start_with [".3mf"; ".stl"]))
  = Raises OSError
  /\ resolver_calls (log (download_model_files offline benchy_model "out" 1%positive
                            false false (start_with [".3mf"; ".stl"])))
     = [].
Proof.
  destruct (folder_failure_stops_the_run offline benchy_model "out" 1%positive false
              false (start_with [".3mf"; ".stl"]) [benchy_3mf; benchy_stl; lid_stl]
              0 OSError eq_refl ltac:(simpl; lia)
              (fun j (H : j < 0) => match Nat.nlt_0_r j H with end) eq_refl)
    as (H1 & H2 & _).
  split; [exact H1 | exact H2].
Defined.

(** X12. The closing message is printed exactly when the run returns
    without an exception, and then it is the last thing the run does. *)
Theorem done_exactly_on_return :
  forall env data root (l : loc) dry verbose s files,
    out (select_files (stls data) l verbose s) = Returns files ->
    let r := download_model_files env data root l dry verbose s in
    (out r = Returns tt <-> said_done (log r) = true)
    /\ (out r = Returns tt -> List.last (log r) EvSleep = EvPrint MsgDone).
Proof.
  intros env data root l dry verbose s files Hsel r. subst r.
  rewrite (download_model_files_out env data root l dry verbose s files Hsel).
  rewrite (download_model_files_log env data root l dry verbose s files Hsel).
  cbn zeta.
  destruct (quiet_parts env data root l dry verbose s files []) as (Hq1 & _).
  destruct (quiet_parts env data root l dry verbose
              (final (select_files (stls data) l verbose s)) files [])
    as (_ & Hq2 & _).
  rewrite !said_done_app, Hq1, Hq2. cbn [orb].
  destruct (out (collect_remaining env files root dry _)) as [remaining|e].
  - destruct (quiet_parts env data root l dry verbose
                (final (collect_remaining env files root dry
                          (final (select_files (stls data) l verbose s))))
                files remaining) as (_ & _ & Hq3).
    rewrite said_done_app, Hq3. cbn [orb].
    destruct (out (process_remaining env (model_id data) remaining dry verbose _))
      as [[]|e'].
    + split; [split; reflexivity|]. intros _.
      rewrite !app_assoc. apply List.last_last.
    + split; [split; discriminate | discriminate].
  - split; [split; discriminate | discriminate].
Qed.

Lemma done_exactly_on_return_witness :
  List.last (log (download_model_files second_unavailable benchy_model "out" 1%positive
                    true false (start_with [".3mf"; ".stl"]))) EvSleep
  = EvPrint MsgDone.
Proof.
  apply (proj2 (done_exactly_on_return second_unavailable benchy_model "out" 1%positive
                  true false (start_with [".3mf"; ".stl"])
                  [benchy_3mf; benchy_stl; lid_stl] eq_refl)).
  reflexivity.
Defined.

(** X13. The run has two phases: every folder creation and every existence
    check comes before the first request for a link, and so before any
    download.  A file saved by this run is therefore never seen by this
    run's own existence checks. *)
Theorem checks_precede_requests :
  forall env data root (l : loc) dry verbose s files,
    out (select_files (stls data) l verbose s) = Returns files ->
    exists before later,
      log (download_model_files env data root l dry verbose s) = (before ++ later)%list
      /\ Forall (fun ev => second_loop_io ev = false) before
      /\ Forall (fun ev => first_loop_io ev = false) later.
Proof.
  intros env data root l dry verbose s files Hsel.
  rewrite (download_model_files_log env data root l dry verbose s files Hsel).
  cbn zeta.
  eexists (log (select_files (stls data) l verbose s)
             ++ log (collect_remaining env files root dry
                       (final (select_files (stls data) l verbose s))))%list.
  eexists. split; [rewrite <- app_assoc; reflexivity|]. split.
  - apply Forall_app. split.
    + apply selection_makes_no_folder, select_files_emits.
    + apply first_loop_asks_nobody, collect_remaining_emits.
  - destruct (out (collect_remaining env files root dry _)) as [remaining|e];
      [|constructor].
    cbn zeta. apply Forall_app. split.
    + apply second_loop_makes_no_folder, process_remaining_emits.
    + apply (done_makes_no_folder
               (out (process_remaining env (model_id data) remaining dry verbose _))).
Qed.

Lemma checks_precede_requests_witness :
  exists before later,
    log (download_model_files first_present benchy_model "out" 1%positive false false
           (start_with [".3mf"; ".stl"]))
    = (before ++ later)%list
    /\ Forall (fun ev => second_loop_io ev = false) before
    /\ Forall (fun ev => first_loop_io ev = false) later.
Proof.
  exact (checks_precede_requests first_present benchy_model "out" 1%positive false false
           (start_with [".3mf"; ".stl"]) [benchy_3mf; benchy_stl; lid_stl] eq_refl).
Defined.

(** ** More on the fetcher *)

Section FetcherFacts.

Variable env : Env.
Variables (url : pyval) (save_path name : string) (verbose : bool).

Let guarded : M bool :=
  try_except (attempt_body env url save_path)
             (fun e => print (MsgError e) ;;; ret false).

Lemma count_sleeps_app l1 l2 :
  count_sleeps (l1 ++ l2) = count_sleeps l1 + count_sleeps l2.
Proof. unfold count_sleeps. rewrite List.filter_app, List.length_app. reflexivity. Qed.

Lemma no_sleep_in_writes chunks :
  count_sleeps (List.map (EvWrite save_path) chunks) = 0.
Proof. induction chunks as [|c cs IH]; [reflexivity | exact IH]. Qed.

(** What one guarded attempt does beyond [guarded_run]: it does not wait,
    it lets through only what [except Exception] does not catch, and it
    touches the file only when the status is a success. *)
Lemma guarded_more s :
  let g := get_calls s in
  let r := guarded s in
  count_sleeps (log r) = 0
  /\ (forall e, out r = Raises e -> is_Exception e = false)
  /\ (forall e, attempt_interrupted env g = Some e -> out r = Raises e)
  /\ (no_body env g = true -> Forall (fun ev => touches_file ev = false) (log r)).
Proof.
  unfold guarded, try_except, attempt_body, attempt_interrupted, no_body,
    bind, session_get; cbn [out final log].
  destruct (get_reply env (get_calls s)) as [resp|e]; cbn [out final log].
  - destruct (ok resp); cbn [out final log negb].
    + unfold save_body.
      destruct (save_reply env (get_calls s)) as [e|chunks [e|]];
        unfold bind, print, emit, raise, ret; cbn [out final log];
        rewrite ?write_chunks_run; cbn [out final log];
        try (destruct (is_Exception e) eqn:He; cbn [out final log]);
        rewrite ?count_sleeps_app, ?no_sleep_in_writes;
        repeat split; try reflexivity; try discriminate;
        try (intros e' [= <-]; exact He); try (intros e' [= <-]; reflexivity).
    + unfold bind, print, emit, ret; cbn [out final log].
      repeat split; try reflexivity; try discriminate.
      intros _. repeat constructor.
  - destruct (is_Exception e) eqn:He; unfold bind, print, emit, ret;
      cbn [out final log];
      repeat split; try reflexivity; try discriminate;
      try (intros e' [= <-]; exact He); try (intros e' [= <-]; reflexivity);
      intros _; repeat constructor.
Qed.

Lemma count_sleeps_pre (b : bool) m : count_sleeps (if b then [EvPrint m] else []) = 0.
Proof. destruct b; reflexivity. Qed.

Lemma untouched_pre (b : bool) m :
  Forall (fun ev => touches_file ev = false) (if b then [EvPrint m] else []).
Proof. destruct b; repeat constructor. Qed.

Lemma attempts_bounds todo s :
  let r := attempts env todo url save_path name verbose s in
  count_gets (log r) <= List.length todo
  /\ (forall e, out r = Raises e -> is_Exception e = false)
  /\ (out r = Returns false ->
      count_gets (log r) = List.length todo /\ count_sleeps (log r) = List.length todo)
  /\ (out r = Returns true -> count_sleeps (log r) + 1 = count_gets (log r)).
Proof.
  revert s. induction todo as [|a todo IH]; intros s.
  - cbn. repeat split; try discriminate; lia.
  - cbn zeta. rewrite attempts_step. cbn zeta. fold guarded.
    destruct (guarded_run env url save_path s) as (_ & Hc & _). fold guarded in Hc.
    destruct (guarded_more s) as (Hs & Hexn & _).
    destruct (out (guarded s)) as [[|]|e] eqn:Ho; cbn [out log].
    + rewrite count_gets_app, count_sleeps_app, count_gets_pre, count_sleeps_pre, Hc, Hs.
      cbn [List.length]. repeat split; try discriminate; lia.
    + destruct (IH (final (guarded s))) as (I1 & I2 & I3 & I4).
      unfold after; cbn [out log].
      rewrite !count_gets_app, !count_sleeps_app, count_gets_pre, count_sleeps_pre, Hc, Hs.
      cbn [List.length]. change (count_gets [EvSleep]) with 0.
      change (count_sleeps [EvSleep]) with 1.
      split; [lia|]. split; [exact I2|]. split.
      * intros H. destruct (I3 H) as [-> ->]. split; lia.
      * intros H. specialize (I4 H). lia.
    + rewrite count_gets_app, count_gets_pre, Hc. cbn [List.length].
      split; [lia|]. split; [|split; discriminate].
      intros e' [= <-]. apply Hexn. reflexivity.
Qed.

Lemma attempts_untouched todo s :
  (forall k, k < List.length todo -> no_body env (get_calls s + k) = true) ->
  Forall (fun ev => touches_file ev = false)
         (log (attempts env todo url save_path name verbose s)).
Proof.
  revert s. induction todo as [|a todo IH]; intros s Hall.
  - repeat constructor.
  - rewrite attempts_step. cbn zeta. fold guarded.
    destruct (guarded_run env url save_path s) as (Hg & _). fold guarded in Hg.
    destruct (guarded_more s) as (_ & _ & _ & Hun).
    assert (H0 : no_body env (get_calls s) = true).
    { rewrite <- (Nat.add_0_r (get_calls s)). apply Hall. simpl. lia. }
    specialize (Hun H0).
    destruct (out (guarded s)) as [[|]|e]; cbn [log].
    + apply Forall_app. split; [apply untouched_pre | exact Hun].
    + unfold after; cbn [log]. rewrite !Forall_app.
      split; [split; [apply untouched_pre|split; [exact Hun | repeat constructor]]|].
      apply IH. intros k Hk. rewrite Hg.
      replace (S (get_calls s) + k) with (get_calls s + S k) by lia.
      apply Hall. simpl. lia.
    + apply Forall_app. split; [apply untouched_pre | exact Hun].
Qed.

Lemma attempts_interrupt todo s k e :
  k < List.length todo ->
  (forall j, j < k -> attempt_fails env (get_calls s + j) = true) ->
  attempt_interrupted env (get_calls s + k) = Some e ->
  let r := attempts env todo url save_path name verbose s in
  out r = Raises e /\ count_gets (log r) = k + 1.
Proof.
  revert s k. induction todo as [|a todo IH]; intros s k Hk Hbefore Hnow.
  - simpl in Hk. lia.
  - cbn zeta. rewrite attempts_step. cbn zeta. fold guarded.
    destruct (guarded_run env url save_path s) as (Hg & Hc & Hfail & _).
    fold guarded in Hg, Hc, Hfail.
    destruct (guarded_more s) as (_ & _ & Hint & _).
    destruct k as [|k].
    + rewrite Nat.add_0_r in Hnow. rewrite (Hint e Hnow). cbn [out log].
      rewrite count_gets_app, count_gets_pre, Hc. split; reflexivity.
    + rewrite Hfail by (rewrite <- (Nat.add_0_r (get_calls s)); apply Hbefore; lia).
      destruct (IH (final (guarded s)) k) as (Ho & Hn).
      * simpl in Hk. lia.
      * intros j Hj. rewrite Hg.
        replace (S (get_calls s) + j) with (get_calls s + S j) by lia.
        apply Hbefore. lia.
      * rewrite Hg. replace (S (get_calls s) + k) with (get_calls s + S k) by lia.
        exact Hnow.
      * unfold after; cbn [out log]. split; [exact Ho|].
        rewrite !count_gets_app, count_gets_pre, Hc, Hn. cbn. lia.
Qed.

End FetcherFacts.

(** X14. The fetcher never raises an exception that [except Exception]
    would catch: it returns a boolean, or lets an interruption through.  It
    sends at most three GET requests.  When it returns [False] it has sent
    exactly three and waited three times, the last wait coming after the
    last failure; when it returns [True] it has waited once for each
    failed attempt. *)
Theorem download_file_bounded :
  forall env url save_path name dry verbose s,
    let r := download_file env url save_path name dry verbose s in
    (forall e, out r = Raises e -> is_Exception e = false)
    /\ count_gets (log r) <= 3
    /\ (out r = Returns false ->
        dry = false /\ count_gets (log r) = 3 /\ count_sleeps (log r) = 3)
    /\ (out r = Returns true -> dry = false ->
        count_sleeps (log r) + 1 = count_gets (log r)).
Proof.
  intros env url save_path name dry verbose s r. subst r. destruct dry.
  - rewrite download_file_dry. cbn. repeat split; try discriminate. lia.
  - change (download_file env url save_path name false verbose s)
      with (after [EvFetch save_path name]
                  (attempts env (seq 0 3) url save_path name verbose s)).
    destruct (attempts_bounds env url save_path name verbose (seq 0 3) s)
      as (H1 & H2 & H3 & H4).
    unfold after; cbn [out log].
    change (count_gets (EvFetch save_path name
                          :: log (attempts env (seq 0 3) url save_path name verbose s)))
      with (count_gets (log (attempts env (seq 0 3) url save_path name verbose s))).
    change (count_sleeps (EvFetch save_path name
                            :: log (attempts env (seq 0 3) url save_path name verbose s)))
      with (count_sleeps (log (attempts env (seq 0 3) url save_path name verbose s))).
    split; [exact H2|]. split; [exact H1|]. split.
    + intros H. destruct (H3 H) as [E1 E2]. auto.
    + intros H _. apply H4, H.
Qed.

Lemma download_file_bounded_witness :
  count_sleeps (log (download_file (unavailable_503 "https://files/103")
                       (PStr "https://files/103") "out/parts/lid.stl" "lid.stl"
                       false false (start_with [".stl"])))
  = 3.
Proof.
  exact (proj2 (proj2 (proj1 (proj2 (proj2 (download_file_bounded
           (unavailable_503 "https://files/103") (PStr "https://files/103")
           "out/parts/lid.stl" "lid.stl" false false (start_with [".stl"]))))
           eq_refl))).
Defined.

(** X15. When none of the three replies brings a body to save (the request
    raises, or the status is not a success), the fetcher never opens the
    destination and writes nothing to it. *)
Theorem no_success_status_no_file :
  forall env url save_path name verbose s,
    (forall k, k < 3 -> no_body env (get_calls s + k) = true) ->
    Forall (fun ev => touches_file ev = false)
           (log (download_file env url save_path name false verbose s)).
Proof.
  intros env url save_path name verbose s H.
  change (download_file env url save_path name false verbose s)
    with (after [EvFetch save_path name]
                (attempts env (seq 0 3) url save_path name verbose s)).
  unfold after; cbn [log]. constructor; [reflexivity|].
  apply attempts_untouched. exact H.
Qed.

Lemma no_success_status_no_file_witness :
  Forall (fun ev => touches_file ev = false)
         (log (download_file (unavailable_503 "https://files/103")
                 (PStr "https://files/103") "out/parts/lid.stl" "lid.stl" false true
                 (start_with [".stl"]))).
Proof.
  exact (no_success_status_no_file (unavailable_503 "https://files/103")
           (PStr "https://files/103") "out/parts/lid.stl" "lid.stl" true
           (start_with [".stl"]) (fun k _ => eq_refl)).
Defined.

(** X16. An interruption is not retried: when, after some failed attempts,
    an attempt is cut short by an exception that is not an [Exception]
    (a request or a save interrupted from the keyboard), the fetcher
    raises it at once, without a further request. *)
Theorem interruption_leaves_the_fetcher :
  forall env url save_path name verbose s k e,
    k < 3 ->
    (forall j, j < k -> attempt_fails env (get_calls s + j) = true) ->
    attempt_interrupted env (get_calls s + k) = Some e ->
    let r := download_file env url save_path name false verbose s in
    out r = Raises e /\ count_gets (log r) = k + 1.
Proof.
  intros env url save_path name verbose s k e Hk Hbefore Hnow r. subst r.
  change (download_file env url save_path name false verbose s)
    with (after [EvFetch save_path name]
                (attempts env (seq 0 3) url save_path name verbose s)).
  destruct (attempts_interrupt env url save_path name verbose (seq 0 3) s k e
              Hk Hbefore Hnow) as [Ho Hn].
  unfold after; cbn [out log]. split; [exact Ho | exact Hn].
Qed.

Lemma interruption_leaves_the_fetcher_witness :
  out (download_file interrupted_second (PStr "https://files/103")
         "out/parts/lid.stl" "lid.stl" false false (start_with [".stl"]))
  = Raises KeyboardInterrupt
  /\ count_gets (log (download_file interrupted_second (PStr "https://files/103")
                        "out/parts/lid.stl" "lid.stl" false false (start_with [".stl"])))
     = 2.
Proof.
  apply (interruption_leaves_the_fetcher interrupted_second (PStr "https://files/103")
           "out/parts/lid.stl" "lid.stl" false (start_with [".stl"]) 1
           KeyboardInterrupt).
  - lia.
  - intros j Hj. destruct j; [reflexivity | lia].
  - reflexivity.
Defined.

(** ** The verbose flag *)

Section Verbose.

Lemma essential_app l1 l2 : essential (l1 ++ l2) = (essential l1 ++ essential l2)%list.
Proof. apply List.filter_app. Qed.

Lemma alike_same {A} (m : M A) : alike_from_any_state m m.
Proof. intros s. repeat split. Qed.

Lemma alike_bind {A B} (m1 m2 : M A) (k1 k2 : A -> M B) :
  alike_from_any_state m1 m2 ->
  (forall a, alike_from_any_state (k1 a) (k2 a)) ->
  alike_from_any_state (bind m1 k1) (bind m2 k2).
Proof.
  intros Hm Hk s. destruct (Hm s) as (Ho & Hf & Hl). unfold bind, alike.
  rewrite <- Ho. destruct (out (m1 s)) as [a|e]; cbn [out final log].
  - destruct (Hk a (final (m1 s))) as (Ho' & Hf' & Hl'). rewrite <- Hf.
    rewrite !essential_app, Hl, Hl'. auto.
  - auto.
Qed.

Lemma alike_try {A} (m1 m2 : M A) (h1 h2 : exn -> M A) :
  alike_from_any_state m1 m2 ->
  (forall e, alike_from_any_state (h1 e) (h2 e)) ->
  alike_from_any_state (try_except m1 h1) (try_except m2 h2).
Proof.
  intros Hm Hh s. destruct (Hm s) as (Ho & Hf & Hl). unfold try_except, alike.
  rewrite <- Ho.
  destruct (out (m1 s)) as [a|e] eqn:E; [cbn iota; repeat split; congruence|].
  destruct (is_Exception e); [|cbn iota; repeat split; congruence].
  cbn [out final log].
  destruct (Hh e (final (m1 s))) as (Ho' & Hf' & Hl'). rewrite <- Hf.
  rewrite !essential_app, Hl, Hl'. auto.
Qed.

Lemma alike_when (b b' : bool) msg :
  verbose_only (EvPrint msg) = true ->
  alike_from_any_state (when b (print msg)) (when b' (print msg)).
Proof.
  intros Hv s. unfold alike.
  rewrite !when_print_run; cbn [out final log].
  repeat split. unfold essential.
  destruct b, b'; cbn [List.filter]; rewrite ?Hv; reflexivity.
Qed.

Variable env : Env.

Lemma alike_attempts todo url path name (v v' : bool) :
  alike_from_any_state (attempts env todo url path name v)
                       (attempts env todo url path name v').
Proof.
  induction todo as [|a todo IH]; cbn [attempts]; [apply alike_same|].
  apply alike_bind; [apply alike_when; reflexivity|]. intros _.
  apply alike_bind; [apply alike_same|]. intros [|]; [apply alike_same|].
  apply alike_bind; [apply alike_same|]. intros _. exact IH.
Qed.

Lemma alike_download_file url path name dry (v v' : bool) :
  alike_from_any_state (download_file env url path name dry v)
                       (download_file env url path name dry v').
Proof.
  unfold download_file. apply alike_bind; [apply alike_same|]. intros _.
  destruct dry; [apply alike_same | apply alike_attempts].
Qed.

Lemma alike_process_remaining mid remaining dry (v v' : bool) :
  alike_from_any_state (process_remaining env mid remaining dry v)
                       (process_remaining env mid remaining dry v').
Proof.
  induction remaining as [|[file path] remaining IH]; cbn [process_remaining];
    [apply alike_same|].
  apply alike_bind; [|intros _; exact IH].
  unfold process_file.
  apply alike_bind; [apply alike_when; reflexivity|]. intros _.
  apply alike_bind; [apply alike_same|]. intros url.
  destruct (truthy url); [|apply alike_same].
  apply alike_bind; [apply alike_download_file | intros b; apply alike_same].
Qed.

Lemma alike_select_files files l (v v' : bool) :
  alike_from_any_state (select_files files l v) (select_files files l v').
Proof.
  unfold select_files, filter_extensions, add_stl_fallback.
  apply alike_bind; [|intros exts; apply alike_same].
  apply alike_bind; [|intros _; apply alike_same].
  apply alike_bind; [apply alike_same|]. intros exts.
  destruct (Str.mem ".3mf" exts && negb (has_3mf files)); [|apply alike_same].
  apply alike_bind; [apply alike_same|]. intros exts'.
  destruct (negb (Str.mem ".stl" exts')); [|apply alike_same].
  apply alike_bind; [apply alike_when; reflexivity | intros _; apply alike_same].
Qed.

End Verbose.

(** X17. The verbose flag changes nothing but three messages (the attempt
    number, the note that [.stl] is added, the note that a link is being
    fetched): with or without it a run ends the same way, in the same
    state, and its logs agree once those messages are left out. *)
Theorem verbose_only_adds_messages :
  forall env data root (l : loc) dry s,
    alike (download_model_files env data root l dry true s)
          (download_model_files env data root l dry false s).
Proof.
  intros env data root l dry. unfold download_model_files.
  apply alike_bind; [apply alike_select_files|]. intros files.
  apply alike_bind; [apply alike_same|]. intros remaining.
  apply alike_bind; [apply alike_process_remaining | intros _; apply alike_same].
Qed.

(** ** More on the second loop and the resolver *)

(** X18. An exception of the resolver ends the second loop: the files that
    come later are not touched, whatever they are, and the run stops with
    that exception right after the request that raised. *)
Theorem resolver_exception_halts :
  forall env mid dry (verbose : bool) before file path later s e,
    let r1 := process_remaining env mid before dry verbose s in
    let getting := if verbose then [EvPrint (MsgGetting (file_name file))] else [] in
    let asked := EvPost (file_id file) mid (post_reply env (post_calls (final r1))) in
    out r1 = Returns tt ->
    link_at env (post_calls (final r1)) = Raises e ->
    process_remaining env mid (before ++ (file, path) :: later) dry verbose s
    = {| out := Raises e;
         final := final (session_post env (file_id file) mid (final r1));
         log := (log r1 ++ getting ++ [asked])%list |}.
Proof.
  intros env mid dry verbose before file path later s e r1 getting asked H1 Hlink.
  rewrite process_remaining_app.
  rewrite (bind_returns (process_remaining env mid before dry verbose) _ s tt H1).
  fold r1. cbn [process_remaining].
  pose proof (process_file_run env mid file path dry verbose (final r1)) as Hrun.
  cbn zeta in Hrun. rewrite Hlink in Hrun.
  rewrite (bind_raises _ _ _ e) by (rewrite Hrun; reflexivity).
  rewrite Hrun. reflexivity.
Qed.

Lemma resolver_exception_halts_witness :
  out (process_remaining linkless "7"
         ([(benchy_3mf, "out/parts/benchy.3mf")]
            ++ (benchy_stl, "out/Benchy.STL") :: [(lid_stl, "out/parts/lid.stl")])
         false false (start_with [".3mf"; ".stl"]))
  = Raises KeyError.
Proof.
  assert (H : out (process_remaining linkless "7" [] false false
                     (start_with [".3mf"; ".stl"])) = Returns tt) by reflexivity.
  pose proof (resolver_exception_halts linkless "7" false false []
                benchy_3mf "out/parts/benchy.3mf"
                [(benchy_stl, "out/Benchy.STL"); (lid_stl, "out/parts/lid.stl")]
                (start_with [".3mf"; ".stl"]) KeyError H eq_refl) as E.
  cbn [app] in E |- *. rewrite E. reflexivity.
Defined.

(** X19. A link that counts as one (a truthy value) only ever comes out of
    a reply whose status is not an error, whose body decodes, whose
    [data.getDownloadLink.ok] is truthy, and the link is then exactly the
    field [data.getDownloadLink.output.link] of that body. *)
Theorem link_only_from_ok_reply :
  forall resp url,
    read_link resp = Returns url ->
    truthy url = true ->
    ok resp = true
    /\ exists data d g is_ok o,
         json resp = Some data
         /\ subscript data "data" = Returns d
         /\ subscript d "getDownloadLink" = Returns g
         /\ subscript g "ok" = Returns is_ok
         /\ truthy is_ok = true
         /\ subscript g "output" = Returns o
         /\ subscript o "link" = Returns url.
Proof.
  intros resp url H Hurl. unfold read_link, raise_for_status, response_json in H.
  destruct (ok resp); [|discriminate H]. cbn [and_then] in H.
  destruct (json resp) as [data|]; [|discriminate H]. cbn [and_then] in H.
  destruct (subscript data "data") as [d|] eqn:Hd; [|discriminate H].
  cbn [and_then] in H.
  destruct (subscript d "getDownloadLink") as [g|] eqn:Hg; [|discriminate H].
  cbn [and_then] in H.
  destruct (subscript g "ok") as [is_ok|] eqn:Hk; [|discriminate H].
  cbn [and_then] in H.
  destruct (truthy is_ok) eqn:Ht.
  - cbn [and_then] in H.
    destruct (subscript g "output") as [o|] eqn:Ho; [|discriminate H].
    cbn [and_then] in H.
    split; [reflexivity|]. exists data, d, g, is_ok, o. auto 10.
  - injection H as <-. discriminate Hurl.
Qed.

Lemma link_only_from_ok_reply_witness :
  ok (link_reply true (Some "https://files/103")) = true
  /\ exists data d g is_ok o,
       json (link_reply true (Some "https://files/103")) = Some data
       /\ subscript data "data" = Returns d
       /\ subscript d "getDownloadLink" = Returns g
       /\ subscript g "ok" = Returns is_ok
       /\ truthy is_ok = true
       /\ subscript g "output" = Returns o
       /\ subscript o "link" = Returns (PStr "https://files/103").
Proof.
  exact (link_only_from_ok_reply (link_reply true (Some "https://files/103"))
           (PStr "https://files/103") eq_refl eq_refl).
Defined.

(** X20. Replies the resolver has no guard for.  With a status that is not
    an error: a body that does not decode raises [JSONDecodeError]; a body
    that is not an object raises [TypeError]; an object without [data]
    raises [KeyError]; and an object whose [data] is null, as in a GraphQL
    error reply, raises [TypeError]. *)
Theorem unguarded_replies_raise :
  forall resp,
    ok resp = true ->
    (json resp = None -> read_link resp = Raises JSONDecodeError)
    /\ (forall data,
          json resp = Some data ->
          (forall d, data <> PDict d) ->
          read_link resp = Raises TypeError)
    /\ (forall d,
          json resp = Some (PDict d) ->
          (assoc "data" d = None -> read_link resp = Raises KeyError)
          /\ (assoc "data" d = Some PNone -> read_link resp = Raises TypeError)).
Proof.
  intros resp Hok. unfold read_link, raise_for_status, response_json.
  rewrite Hok. cbn [and_then]. split; [|split].
  - intros ->. reflexivity.
  - intros data -> Hno. cbn [and_then].
    destruct data as [| | | | |d]; try reflexivity. destruct (Hno d eq_refl).
  - intros d ->. cbn [and_then subscript]. split; intros ->; reflexivity.
Qed.

Lemma unguarded_replies_raise_witness :
  read_link {| status_code := 200; reason := "OK";
               json := Some (PDict [("errors", PList [PStr "rate limited"]);
                                    ("data", PNone)]) |}
  = Raises TypeError.
Proof.
  exact (proj2 (proj2 (proj2 (unguarded_replies_raise
           {| status_code := 200; reason := "OK";
              json := Some (PDict [("errors", PList [PStr "rate limited"]);
                                   ("data", PNone)]) |} eq_refl)) _ eq_refl)
               eq_refl).
Defined.

(** X21. The fallback is not applied twice to the same list: after a run,
    a further run over the same model, whatever its other arguments and
    whatever the outside world does, leaves the list of extensions as the
    first run left it. *)
Theorem fallback_applied_once :
  forall env env' data root root' (l : loc) dry dry' verbose verbose' s
         (exts : list string),
    lists s !! l = Some exts ->
    let s1 := final (download_model_files env data root l dry verbose s) in
    lists (final (download_model_files env' data root' l dry' verbose' s1)) = lists s1.
Proof.
  intros env env' data root root' l dry dry' verbose verbose' s exts Hl s1.
  assert (H1 : lists s1 = lists (final (add_stl_fallback (stls data) l verbose s)))
    by apply download_model_files_lists.
  rewrite download_model_files_lists.
  rewrite (add_stl_fallback_run _ _ _ _ _ Hl) in H1.
  destruct (fallback_appliesb (stls data) exts) eqn:E; cbn [final set_lists lists] in H1.
  - assert (Hl1 : lists s1 !! l = Some (exts ++ [".stl"])%list)
      by (rewrite H1; apply lookup_insert_eq).
    rewrite (add_stl_fallback_run _ _ _ _ _ Hl1).
    assert (Hno : fallback_appliesb (stls data) (exts ++ [".stl"])%list = false).
    { unfold fallback_appliesb.
      assert (Hm : Str.mem ".stl" (exts ++ [".stl"])%list = true).
      { apply mem_In, in_or_app. right. left. reflexivity. }
      rewrite Hm. apply andb_false_r. }
    rewrite Hno. reflexivity.
  - assert (Hl1 : lists s1 !! l = Some exts) by (rewrite H1; exact Hl).
    rewrite (add_stl_fallback_run _ _ _ _ _ Hl1), E. reflexivity.
Qed.

Lemma fallback_applied_once_witness :
  lists (final (download_model_files second_unavailable one_stl_model "out" 1%positive
                  true false
                  (final (download_model_files no_links one_stl_model "out" 1%positive
                            false false (start_with [".3mf"])))))
  !! 1%positive
  = Some [".3mf"; ".stl"].
Proof.
  rewrite (fallback_applied_once no_links second_unavailable one_stl_model "out" "out"
             1%positive false true false false (start_with [".3mf"]) [".3mf"] eq_refl).
  reflexivity.
Defined.

(** ** The page extractor *)

Section Extractor.

Variable web : Web.

Lemma parse_block_got block v :
  parse_block web block = Got v
  <-> exists d t,
        json_loads web block = Returns (PDict d)
        /\ assoc "body" d = Some (PStr t)
        /\ t <> EmptyString
        /\ json_loads web t = Returns v.
Proof.
  unfold parse_block, get_body, loads_value. split.
  - destruct (json_loads web block) as [outer|e] eqn:H0; [|discriminate].
    destruct outer as [| | | | |d]; try discriminate.
    destruct (assoc "body" d) as [body|] eqn:Hb;
      cbn [default from_option id truthy negb]; [|discriminate].
    destruct (truthy body) eqn:Ht; cbn [negb]; [|discriminate].
    destruct body as [| | |t| |]; try discriminate.
    destruct (json_loads web t) as [x|e] eqn:Hx; [|discriminate].
    intros [= <-]. exists d, t.
    split; [reflexivity|]. split; [exact Hb|].
    split; [intros ->; discriminate Ht | exact Hx].
  - intros (d & t & -> & -> & Hne & Ht). cbn [default from_option id truthy].
    destruct (String.eqb_spec t EmptyString) as [E|_]; [contradiction|].
    cbn [negb]. rewrite Ht. reflexivity.
Qed.

Lemma wrap_is_runtime_error e :
  (forall e', e = Known e' -> is_Exception e' = true) ->
  wrap e = RuntimeError (ParseFailed e).
Proof.
  intros H. destruct e as [e'| |]; try reflexivity.
  cbn [wrap]. rewrite (H e' eq_refl). reflexivity.
Qed.

Lemma parse_block_threw block e :
  loads_raises_exceptions web ->
  parse_block web block = Threw e ->
  forall e', e = Known e' -> is_Exception e' = true.
Proof.
  intros Hloads. unfold parse_block, get_body, loads_value.
  destruct (json_loads web block) as [outer|e0] eqn:H0.
  - destruct outer as [| | | | |d]; try (intros [= <-] e' [=]).
    destruct (truthy (default PNone (assoc "body" d))); cbn [negb];
      [|intros [= <-] e' [=]].
    destruct (default PNone (assoc "body" d)) as [| | |t| |];
      try (intros [= <-] e' [= <-]; reflexivity).
    destruct (json_loads web t) as [x|e1] eqn:H1; [discriminate|].
    intros [= <-] e' [= <-]. apply (Hloads t e1 H1).
  - intros [= <-] e' [= <-]. apply (Hloads block e0 H0).
Qed.

End Extractor.

(** X22. The extractor returns a value exactly when the page answers with a
    status that is not an error, the pattern finds a script block, the
    block decodes to an object whose [body] is a non-empty text, and that
    text decodes; the value returned is then the decoded text, whatever it
    is. *)
Theorem extraction_succeeds_exactly_when :
  forall web url verbose v,
    fst (extract_model_json_from_url web url verbose) = Extracted v
    <-> exists res block d t,
          page_reply web (files_url url) = Returns res
          /\ ok (head res) = true
          /\ script_block web (text res) = Some block
          /\ json_loads web block = Returns (PDict d)
          /\ assoc "body" d = Some (PStr t)
          /\ t <> EmptyString
          /\ json_loads web t = Returns v.
Proof.
  intros web url verbose v. unfold extract_model_json_from_url. cbn zeta. split.
  - destruct (page_reply web (files_url url)) as [res|e]; [|discriminate].
    destruct (ok (head res)) eqn:Hok; cbn [negb]; [|discriminate].
    destruct (script_block web (text res)) as [block|] eqn:Hb; [|discriminate].
    destruct (parse_block web block) as [inner|e] eqn:Hp; [|discriminate].
    cbn [fst]. intros [= ->].
    apply parse_block_got in Hp. destruct Hp as (d & t & H1 & H2 & H3 & H4).
    exists res, block, d, t. repeat split; assumption || reflexivity.
  - intros (res & block & d & t & -> & Hok & -> & H1 & H2 & H3 & H4).
    rewrite Hok. cbn [negb].
    rewrite (proj2 (parse_block_got web block v)) by (exists d, t; auto).
    reflexivity.
Qed.

(** X23. Whatever goes wrong once the page has answered is reported as a
    [RuntimeError], provided [json.loads] raises only exceptions that
    [except Exception] catches: an error status, no script block, a block
    or a body that does not decode, an outer value that is no object, a
    body that is missing, empty or no text.  No [KeyError], [ValueError] or
    decoding error leaves the function as such. *)
Theorem extraction_fails_with_runtime_error :
  forall web url verbose res,
    loads_raises_exceptions web ->
    page_reply web (files_url url) = Returns res ->
    (exists v, fst (extract_model_json_from_url web url verbose) = Extracted v)
    \/ (exists why, fst (extract_model_json_from_url web url verbose)
                    = Failed (RuntimeError why)).
Proof.
  intros web url verbose res Hloads Hres. unfold extract_model_json_from_url.
  cbn zeta. rewrite Hres.
  destruct (ok (head res)); cbn [negb]; [|right; eexists; reflexivity].
  destruct (script_block web (text res)) as [block|]; [|right; eexists; reflexivity].
  destruct (parse_block web block) as [inner|e] eqn:Hp.
  - left. eexists. reflexivity.
  - right. cbn [fst].
    rewrite (wrap_is_runtime_error e (parse_block_threw web block e Hloads Hp)).
    eexists. reflexivity.
Qed.

Lemma extraction_fails_with_runtime_error_witness :
  (exists v, fst (extract_model_json_from_url benchy_site "7" false) = Extracted v)
  \/ (exists why, fst (extract_model_json_from_url benchy_site "7" false)
                  = Failed (RuntimeError why)).
Proof.
  apply (extraction_fails_with_runtime_error benchy_site "7" false
           {| head := {| status_code := 404; reason := "Not Found"; json := None |};
              text := EmptyString |}).
  - intros t e. cbn [benchy_site json_loads].
    destruct (String.eqb t "outer"); [discriminate|].
    destruct (String.eqb t "inner"); [discriminate|].
    intros [= <-]. reflexivity.
  - reflexivity.
Defined.

(** X24. The body that an extraction needs is a text: a block whose [body]
    is missing, null or the empty text fails with the [ValueError] of line
    57, and one whose [body] is a number, a list or an object that is not
    empty fails with a [TypeError], both wrapped in a [RuntimeError]; an
    outer value that is no object fails on its missing [get]. *)
Theorem body_must_be_text :
  forall web url verbose res block outer,
    page_reply web (files_url url) = Returns res ->
    ok (head res) = true ->
    script_block web (text res) = Some block ->
    json_loads web block = Returns outer ->
    let result := fst (extract_model_json_from_url web url verbose) in
    ((forall d, outer <> PDict d) ->
       result = Failed (RuntimeError (ParseFailed AttributeError)))
    /\ (forall d, outer = PDict d ->
          (truthy (default PNone (assoc "body" d)) = false ->
             result = Failed (RuntimeError (ParseFailed ValueError)))
          /\ (truthy (default PNone (assoc "body" d)) = true ->
              (forall t, default PNone (assoc "body" d) <> PStr t) ->
              result = Failed (RuntimeError (ParseFailed (Known TypeError))))).
Proof.
  intros web url verbose res block outer Hres Hok Hblock Houter result. subst result.
  unfold extract_model_json_from_url. cbn zeta.
  rewrite Hres, Hok. cbn [negb]. rewrite Hblock.
  unfold parse_block. rewrite Houter. split.
  - intros Hno. destruct outer as [| | | | |d]; try reflexivity.
    destruct (Hno d eq_refl).
  - intros d ->. cbn [get_body]. split.
    + intros ->. reflexivity.
    + intros -> Hno. cbn [negb]. unfold loads_value.
      destruct (default PNone (assoc "body" d)) as [| | |t| |]; try reflexivity.
      destruct (Hno t eq_refl).
Qed.

Lemma body_must_be_text_witness :
  fst (extract_model_json_from_url bodiless_site "7" true)
  = Failed (RuntimeError (ParseFailed ValueError)).
Proof.
  exact (proj1 (proj2 (body_must_be_text bodiless_site "7" true
                         {| head := {| status_code := 200; reason := "OK"; json := None |};
                            text := "<html>the page</html>" |}
                         "outer" (PDict [("body", PStr EmptyString)])
                         eq_refl eq_refl eq_refl eq_refl)
                      _ eq_refl)
               eq_refl).
Defined.

(** X25. The extractor sends one request, to the address that lines 31-32
    make of its argument, however the call ends; and an exception of that
    request is passed on as it is, not turned into a [RuntimeError]. *)
Theorem one_page_request :
  forall web url verbose,
    page_gets (snd (extract_model_json_from_url web url verbose)) = [files_url url]
    /\ (forall e,
          page_reply web (files_url url) = Raises e ->
          fst (extract_model_json_from_url web url verbose) = Failed (Passed e)).
Proof.
  intros web url verbose. unfold extract_model_json_from_url. cbn zeta. split.
  - destruct (page_reply web (files_url url)) as [res|e].
    + destruct (ok (head res)); cbn [negb]; [|destruct verbose; reflexivity].
      destruct (script_block web (text res)) as [block|];
        [|destruct verbose; reflexivity].
      destruct (parse_block web block); destruct verbose; reflexivity.
    + destruct verbose; reflexivity.
  - intros e ->. reflexivity.
Qed.

Lemma one_page_request_witness :
  fst (extract_model_json_from_url unreachable_site "7" false)
  = Failed (Passed ConnectionError).
Proof.
  exact (proj2 (one_page_request unreachable_site "7" false) ConnectionError eq_refl).
Defined.

Lemma extraction_succeeds_exactly_when_witness :
  fst (extract_model_json_from_url benchy_site "https://www.printables.com/model/7/"
         true)
  = Extracted benchy_json.
Proof.
  apply (proj2 (extraction_succeeds_exactly_when benchy_site
                  "https://www.printables.com/model/7/" true benchy_json)).
  exists {| head := {| status_code := 200; reason := "OK"; json := None |};
            text := "<html>the page</html>" |},
         "outer", [("body", PStr "inner")], "inner".
  repeat split; try reflexivity. discriminate.
Defined.

(** ** Runs that meet no exception *)

Section QuietRuns.

Variable env : Env.
Variable root : string.

Lemma already_reports_first_loop files dry s :
  (forall i, i < List.length files ->
             makedirs_reply env (makedirs_calls s + i) = None) ->
  already_reports (log (collect_remaining env files root dry s))
  = if dry then [] else present_at env root (exists_calls s) files.
Proof.
  revert s. induction files as [|file files IH]; intros s H.
  - destruct dry; reflexivity.
  - rewrite collect_remaining_cons. cbn zeta.
    pose proof (H 0 ltac:(simpl; lia)) as H0. rewrite Nat.add_0_r in H0. rewrite H0.
    cbn [log present_at]. unfold already_reports in *. rewrite !omap_app.
    cbn [omap list_omap app].
    rewrite IH.
    + change (exists_calls
                (final (os_path_exists env (save_path_of env root file)
                          (final (os_makedirs env (save_dir_of env root file) s)))))
        with (S (exists_calls s)).
      destruct dry; destruct (exists_reply env (exists_calls s)); reflexivity.
    + intros i Hi.
      change (makedirs_calls
                (final (os_path_exists env (save_path_of env root file)
                          (final (os_makedirs env (save_dir_of env root file) s)))))
        with (S (makedirs_calls s)).
      replace (S (makedirs_calls s) + i) with (makedirs_calls s + S i) by lia.
      apply H. simpl. lia.
Qed.

Lemma no_already_elsewhere lg :
  (Forall (fun ev => ev = EvPrint MsgAddingStl) lg \/ Forall second_loop_event lg) ->
  already_reports lg = [].
Proof.
  intros [H|H]; apply omap_none; (eapply Forall_impl; [exact H|]).
  - intros ev ->. reflexivity.
  - intros [[]| | | | | | | |]; cbn; tauto.
Qed.

End QuietRuns.

(** X26. A run in which no folder creation raises, the resolver never
    raises and no download is interrupted returns normally, and it has
    asked the resolver exactly once about each file it did not skip, in
    order: in a dry run about every selected file, otherwise about the
    selected files whose destination was not there. *)
Theorem quiet_run_asks_once_per_file :
  forall env data root (l : loc) dry verbose s files,
    out (select_files (stls data) l verbose s) = Returns files ->
    (forall i, i < List.length files ->
               makedirs_reply env (makedirs_calls s + i) = None) ->
    resolver_answers env ->
    uninterrupted env ->
    let r := download_model_files env data root l dry verbose s in
    out r = Returns tt
    /\ resolver_calls (log r)
       = List.map (request_of (model_id data))
           (if dry then List.map (task_of env root) files
            else kept env root (exists_calls s) files).
Proof.
  intros env data root l dry verbose s files Hsel Hfolders Hres Hun r. subst r.
  destruct (select_files_counters (stls data) l verbose s) as (Hm & Hx & _).
  destruct (collect_remaining_out env root dry files
              (final (select_files (stls data) l verbose s))) as [_ Hdone].
  cbn zeta in Hdone. rewrite Hm, Hx in Hdone. specialize (Hdone Hfolders).
  rewrite (download_model_files_out env data root l dry verbose s files Hsel).
  rewrite (download_model_files_log env data root l dry verbose s files Hsel).
  cbn zeta. rewrite Hdone.
  set (remaining := if dry then List.map (task_of env root) files
                    else kept env root (exists_calls s) files).
  set (s2 := final (collect_remaining env files root dry
                      (final (select_files (stls data) l verbose s)))).
  pose proof (process_remaining_returns env (model_id data) remaining dry verbose s2
                Hres Hun) as Ho.
  rewrite Ho. split; [reflexivity|].
  destruct (selection_calls_nobody _ (select_files_emits (stls data) l verbose s))
    as (Hs1 & _).
  destruct (first_loop_calls_nobody _
              (collect_remaining_emits env files root dry
                 (final (select_files (stls data) l verbose s))))
    as (Hc1 & _).
  destruct (process_remaining_calls env (model_id data) remaining dry verbose s2)
    as (_ & Hp & _).
  unfold resolver_calls in *. rewrite !omap_app, Hs1, Hc1, (Hp Ho). cbn [app].
  apply app_nil_r.
Qed.

Lemma quiet_run_asks_once_per_file_witness :
  resolver_calls (log (download_model_files first_present benchy_model "out" 1%positive
                         true false (start_with [".3mf"; ".stl"])))
  = [("101", "7"); ("102", "7"); ("103", "7")].
Proof.
  apply (quiet_run_asks_once_per_file first_present benchy_model "out" 1%positive true
           false (start_with [".3mf"; ".stl"]) [benchy_3mf; benchy_stl; lid_stl]
           eq_refl (fun i _ => eq_refl)).
  - intros n. eexists. reflexivity.
  - intros n. right. reflexivity.
Defined.

(** X27. The notice that a file is already downloaded is printed for the
    selected files whose destination is found present, in order, and for
    no other; in a dry run it is never printed (as long as no folder
    creation raises). *)
Theorem already_downloaded_notices :
  forall env data root (l : loc) dry verbose s files,
    out (select_files (stls data) l verbose s) = Returns files ->
    (forall i, i < List.length files ->
               makedirs_reply env (makedirs_calls s + i) = None) ->
    already_reports (log (download_model_files env data root l dry verbose s))
    = if dry then [] else present_at env root (exists_calls s) files.
Proof.
  intros env data root l dry verbose s files Hsel Hfolders.
  destruct (select_files_counters (stls data) l verbose s) as (Hm & Hx & _).
  rewrite (download_model_files_log env data root l dry verbose s files Hsel).
  cbn zeta. unfold already_reports. rewrite !omap_app.
  pose proof (no_already_elsewhere (log (select_files (stls data) l verbose s))
                (or_introl (select_files_emits (stls data) l verbose s))) as Hs.
  unfold already_reports in Hs. rewrite Hs. cbn [app].
  pose proof (already_reports_first_loop env root files dry
                (final (select_files (stls data) l verbose s))) as Hc.
  rewrite Hm, Hx in Hc. unfold already_reports in Hc. rewrite (Hc Hfolders).
  rewrite <- (app_nil_r (if dry then [] else present_at env root (exists_calls s) files))
    at 2.
  f_equal.
  destruct (out (collect_remaining env files root dry _)) as [remaining|e];
    [|reflexivity].
  cbn zeta. rewrite omap_app.
  pose proof (no_already_elsewhere _
                (or_intror (process_remaining_emits env (model_id data) remaining dry
                              verbose
                              (final (collect_remaining env files root dry
                                        (final (select_files (stls data) l verbose s)))))))
    as Hp.
  unfold already_reports in Hp. rewrite Hp.
  destruct (out (process_remaining env (model_id data) remaining dry verbose _));
    reflexivity.
Qed.

Lemma already_downloaded_notices_witness :
  already_reports (log (download_model_files first_present benchy_model "out" 1%positive
                          false false (start_with [".3mf"; ".stl"])))
  = ["out/parts/benchy.3mf"].
Proof.
  exact (already_downloaded_notices first_present benchy_model "out" 1%positive false
           false (start_with [".3mf"; ".stl"]) [benchy_3mf; benchy_stl; lid_stl]
           eq_refl (fun i _ => eq_refl)).
Defined.
